(** * LangGraph learning examples: document workflows over a graph engine

    The repository holds four Python scripts (basic_graph, conditional_graph,
    human_in_loop, ai_workflow).  Each one declares a [TypedDict] state, a
    handful of node functions returning partial updates, wires them into a
    [StateGraph] and invokes the compiled graph.

    This development embeds the node and router functions of the scripts as
    Rocq functions over Python-like values, models the graph engine that
    executes them, and proves the properties stated for the workflows. *)

From Stdlib Require Import Floats Ascii String.
From stdpp Require Import base strings gmap list.

Set Warnings "-register-all,-inexact-float".
Local Open Scope string_scope.

(** ** Python values *)

(** The values that the scripts put into their states: [str], [bool],
    [float], [dict] with string keys, and [None].  Other Python objects
    ([bytes], [int], [list], ...) are outside the model: a statement about
    every state is a statement about states built from these five. *)
Inductive value : Type :=
| VNone
| VStr (s : string)
| VBool (b : bool)
| VFloat (f : float)
| VDict (d : gmap string value).

(** Exceptions raised by the node functions and by the engine. *)
Inductive error : Type :=
| KeyError (k : string)
| AttributeError (attr : string)
| TypeError
| ExternalError (msg : string)
| DuplicateNodeError (name : string)
| UnknownNodeError (name : string)
| ConflictingEdgeError (name : string)
| GraphValidationError (invariant : nat) (offending : list string)
| UnknownFieldError
| RoutingError (label : string)
| NodeExecutionError (cause : error).

Inductive result (A : Type) : Type :=
| Ok (a : A)
| Err (e : error).
Arguments Ok {A} a.
Arguments Err {A} e.

(** Exceptions propagate through sequenced evaluation: [x ← r; k]. *)
#[global] Instance result_bind : MBind result := λ A B k r,
  match r with
  | Ok a => k a
  | Err e => Err e
  end.

(** A state (and a partial update) is a Python [dict] keyed by field name. *)
Abbreviation State := (gmap string value).
Abbreviation Partial := (gmap string value).

(** [state[k]]: subscription raises [KeyError] on a missing key. *)
Definition getitem (state : State) (k : string) : result value :=
  match state !! k with
  | Some v => Ok v
  | None => Err (KeyError k)
  end.

(** ** Python string operations (code points U+0000 to U+00FF) *)

Module PyStr.

(** [str.lower] on one character: the upper-case letters of Latin-1 are
    A-Z, U+00C0-U+00D6 and U+00D8-U+00DE, each 32 below its lower case. *)
Definition is_upper (c : ascii) : bool :=
  let n := nat_of_ascii c in
  (((65 <=? n) && (n <=? 90)) || ((192 <=? n) && (n <=? 214))
   || ((216 <=? n) && (n <=? 222)))%nat.

Definition lower_char (c : ascii) : ascii :=
  if is_upper c then ascii_of_nat (nat_of_ascii c + 32) else c.

Fixpoint lower (s : string) : string :=
  match s with
  | EmptyString => EmptyString
  | String c t => String (lower_char c) (lower t)
  end.

(** [s.startswith(p)] *)
Fixpoint startswith (p s : string) : bool :=
  match p, s with
  | EmptyString, _ => true
  | String a p', String b s' => bool_decide (a = b) && startswith p' s'
  | String _ _, EmptyString => false
  end.

(** [sub in s]: substring test. *)
Fixpoint contains (sub s : string) : bool :=
  startswith sub s ||
  match s with
  | EmptyString => false
  | String _ t => contains sub t
  end.

(** [str.isspace] on one character. *)
Definition is_space (c : ascii) : bool :=
  let n := nat_of_ascii c in
  (((9 <=? n) && (n <=? 13)) || ((28 <=? n) && (n <=? 32))
   || (n =? 133) || (n =? 160))%nat.

Fixpoint lstrip (s : string) : string :=
  match s with
  | EmptyString => EmptyString
  | String c t => if is_space c then lstrip t else s
  end.

(** [rstrip] keeps a character when it is not a space or when something
    survives to its right. *)
Fixpoint rstrip (s : string) : string :=
  match s with
  | EmptyString => EmptyString
  | String c t =>
      match rstrip t with
      | EmptyString => if is_space c then EmptyString else String c EmptyString
      | r => String c r
      end
  end.

Definition strip (s : string) : string := rstrip (lstrip s).

End PyStr.

(** Every character of [s] is white space (true of the empty string). *)
Fixpoint blank (s : string) : bool :=
  match s with
  | EmptyString => true
  | String c t => PyStr.is_space c && blank t
  end.

(** ** Python operators on values *)

(** Truth value of an object, as [if v:] tests it. *)
Definition truthy (v : value) : bool :=
  match v with
  | VNone => false
  | VStr s => negb (bool_decide (s = ""))
  | VBool b => b
  | VFloat f => negb (PrimFloat.eqb f 0%float)
  | VDict d => negb (bool_decide (size d = 0))
  end.

(** [v == lit] for a string literal [lit]. *)
Definition eq_str (v : value) (lit : string) : bool :=
  match v with
  | VStr s => bool_decide (s = lit)
  | _ => false
  end.

(** [v.lower()], on the modelled values: only [str] has the method. *)
Definition py_lower (v : value) : result string :=
  match v with
  | VStr s => Ok (PyStr.lower s)
  | _ => Err (AttributeError "lower")
  end.

(** [len(v)] *)
Definition py_len (v : value) : result nat :=
  match v with
  | VStr s => Ok (String.length s)
  | VDict d => Ok (size d)
  | _ => Err TypeError
  end.

(** [v.get(k, dflt)] *)
Definition py_get (v : value) (k : string) (dflt : value) : result value :=
  match v with
  | VDict d => Ok (default dflt (d !! k))
  | _ => Err (AttributeError "get")
  end.

(** ** The graph engine

    The scripts import [StateGraph], [START], [END] and [MemorySaver] from
    langgraph; the engine that builds and runs the graphs is not among the
    scripts.  It is modelled here from its specification: the data model
    (section 3), the state model, the builder, the step loop and the
    checkpoint store (section 4). *)

Module Engine.

Definition START : string := "__start__".
Definition END : string := "__end__".

Definition node_fn : Type := State → result Partial.
Definition router_fn : Type := State → result string.

(** Modelled from the spec: the outgoing transition of a node, a static
    edge or a conditional edge with its router and routing table. *)
Inductive transition : Type :=
| Static (dst : string)
| Conditional (router : router_fn) (table : gmap string string).

(** *** State model *)

(** Modelled from the spec: the engine's [merge(current, partial)].  Keys of
    [partial] overwrite, other keys are untouched, and a key outside the
    schema is an [UnknownFieldError]. *)
Definition merge (schema : gset string) (current : State) (partial : Partial)
  : result State :=
  if decide (dom partial ⊆ schema) then Ok (partial ∪ current)
  else Err UnknownFieldError.

(** *** Graph builder *)

(** Modelled from the spec: the graph under construction, with the
    schema of its state, its nodes by name and the single outgoing
    transition of each node (and of START). *)
Record StateGraph : Type := mkStateGraph {
  schema : gset string;
  nodes : gmap string node_fn;
  edges : gmap string transition;
}.

(** Modelled from the spec: [StateGraph(schema)], a graph without nodes. *)
Definition new_graph (fields : list string) : StateGraph :=
  {| schema := list_to_set fields; nodes := ∅; edges := ∅ |}.

(** START, END and the registered nodes may be endpoints of an edge. *)
Definition registered (g : StateGraph) (name : string) : bool :=
  bool_decide (name = START) || bool_decide (name = END)
  || bool_decide (is_Some (nodes g !! name)).

(** Modelled from the spec: the builder's [addNode(name, fn)]. *)
Definition add_node (name : string) (fn : node_fn) (g : StateGraph)
  : result StateGraph :=
  if bool_decide (is_Some (nodes g !! name)) then Err (DuplicateNodeError name)
  else Ok {| schema := schema g; nodes := <[name := fn]> (nodes g);
             edges := edges g |}.

(** Modelled from the spec: the checks shared by [addEdge] and
    [addConditionalEdge], unknown endpoints first, then a second transition
    out of the same node. *)
Definition set_transition (src : string) (t : transition) (dsts : list string)
    (g : StateGraph) : result StateGraph :=
  match filter (λ n, registered g n = false) (src :: dsts) with
  | n :: _ => Err (UnknownNodeError n)
  | [] =>
      if bool_decide (is_Some (edges g !! src)) then Err (ConflictingEdgeError src)
      else Ok {| schema := schema g; nodes := nodes g;
                 edges := <[src := t]> (edges g) |}
  end.

(** Modelled from the spec: the builder's [addEdge(from, to)]. *)
Definition add_edge (src dst : string) (g : StateGraph) : result StateGraph :=
  set_transition src (Static dst) [dst] g.

(** Modelled from the spec: the builder's
    [addConditionalEdge(from, router, table)]; the destinations of the
    table are validated to exist. *)
Definition add_conditional_edges (src : string) (router : router_fn)
    (table : gmap string string) (g : StateGraph) : result StateGraph :=
  set_transition src (Conditional router table) (map_to_list table).*2 g.

(** *** Compiled graph *)

(** Modelled from the spec: the compiled graph, with the interrupt list
    that the scripts pass to [compile]. *)
Record CompiledGraph : Type := mkCompiled {
  graph : StateGraph;
  interrupt_before : list string;
}.

(** The nodes one transition away from [n]. *)
Definition successors (g : StateGraph) (n : string) : gset string :=
  match edges g !! n with
  | Some (Static d) => {[ d ]}
  | Some (Conditional _ table) => list_to_set (map_to_list table).*2
  | None => ∅
  end.

(** The nodes reached from [seen] in at most [fuel] transitions. *)
Fixpoint reachable (fuel : nat) (g : StateGraph) (seen : gset string)
  : gset string :=
  match fuel with
  | O => seen
  | S fuel' =>
      reachable fuel' g (seen ∪ ⋃ (successors g <$> elements seen))
  end.

(** Modelled from the spec: [compile()] checks that every node (and START)
    has an outgoing transition, that every node is reachable from START and
    that no node is named START or END. *)
Definition compile (interrupt : list string) (g : StateGraph)
  : result CompiledGraph :=
  let names := elements (dom (nodes g)) in
  match filter (λ n, edges g !! n = None) (START :: names) with
  | n :: ns => Err (GraphValidationError 1 (n :: ns))
  | [] =>
      let seen := reachable (S (length names)) g {[ START ]} in
      match filter (λ n, n ∉ seen) names with
      | n :: ns => Err (GraphValidationError 2 (n :: ns))
      | [] =>
          match filter (λ n, n = START ∨ n = END) names with
          | n :: ns => Err (GraphValidationError 3 (n :: ns))
          | [] => Ok {| graph := g; interrupt_before := interrupt |}
          end
      end
  end.

(** The value of a computation known to succeed. *)
Definition is_ok {A} (r : result A) : Prop :=
  match r with Ok _ => True | Err _ => False end.

Definition get_ok {A} (r : result A) : is_ok r → A :=
  match r with
  | Ok a => λ _, a
  | Err _ => λ H, False_rect _ H
  end.

(** *** Checkpoints *)

(** Modelled from the spec: the run status kept in a checkpoint. *)
Inductive status : Type := running | paused | completed | failed.

(** Modelled from the spec: the checkpoint of a thread, with the last
    persisted state, the next node to execute and the status. *)
Record Checkpoint : Type := mkCheckpoint {
  cp_state : State;
  cp_next : string;
  cp_status : status;
}.

(** The checkpoint store ([MemorySaver]): one checkpoint per thread
    identifier, last write wins. *)
Abbreviation Store := (gmap string Checkpoint).

(** Modelled from the spec: what [invoke] hands back, the state, the run status, the error that
    was surfaced (if any) and, as instrumentation, the names of the nodes
    whose function was called during this invocation, in order. *)
Record RunResult : Type := mkRunResult {
  state : State;
  run_status : status;
  raised : option error;
  executed : list string;
}.

(** *** Step loop *)

(** The variables of the loop: the store, the running state, the candidate
    node, whether the run resumes from a pause, and the nodes entered. *)
Record Config : Type := mkConfig {
  c_store : Store;
  c_state : State;
  c_next : string;
  c_resumed : bool;
  c_executed : list string;
}.

(** A turn of the loop returns to the caller or goes on. *)
Inductive outcome : Type :=
| Halt (st : Store) (r : RunResult)
| Continue (c : Config).

Section Run.
Context (g : CompiledGraph) (tid : string).

(** Modelled from the spec: persist the checkpoint and return. *)
Definition halt (c : Config) (s : State) (next : string) (stat : status)
    (err : option error) (trace : list string) : outcome :=
  Halt (<[tid := mkCheckpoint s next stat]> (c_store c))
       (mkRunResult s stat err trace).

(** Modelled from the spec: step 2(d), the destination of the transition out of [n].  A label
    that is not a key of the routing table is a [RoutingError]; an
    exception raised by the router itself is surfaced like a node's. *)
Definition next_transition (n : string) (s : State) : result string :=
  match edges (graph g) !! n with
  | None => Err (UnknownNodeError n)
  | Some (Static d) => Ok d
  | Some (Conditional router table) =>
      match router s with
      | Err e => Err (NodeExecutionError e)
      | Ok label =>
          match table !! label with
          | Some d => Ok d
          | None => Err (RoutingError label)
          end
      end
  end.

(** Modelled from the spec: steps 2(d)-(f) after [n] (a node that ran, or
    START) left state [s].  Leaving START persists nothing. *)
Definition advance (c : Config) (n : string) (s : State)
    (trace : list string) : outcome :=
  match next_transition n s with
  | Err e => halt c s n failed (Some e) trace
  | Ok d =>
      if decide (d = END) then halt c s END completed None trace
      else
        Continue {|
          c_store :=
            if decide (n = START) then c_store c
            else <[tid := mkCheckpoint s d running]> (c_store c);
          c_state := s; c_next := d; c_resumed := false;
          c_executed := trace |}
  end.

(** Modelled from the spec: one turn of the loop of section 4.3.  A run
    resumed from a pause enters the node it paused before without
    testing the interrupt list again. *)
Definition step (c : Config) : outcome :=
  let n := c_next c in
  let s := c_state c in
  if decide (n = END) then halt c s END completed None (c_executed c)
  else if decide (n = START) then advance c START s (c_executed c)
  else if negb (c_resumed c) && bool_decide (n ∈ interrupt_before g)
  then halt c s n paused None (c_executed c)
  else
    match nodes (graph g) !! n with
    | None => halt c s n failed (Some (UnknownNodeError n)) (c_executed c)
    | Some fn =>
        let trace := (c_executed c ++ [n])%list in
        match fn s with
        | Err e => halt c s n failed (Some (NodeExecutionError e)) trace
        | Ok partial =>
            match merge (schema (graph g)) s partial with
            | Err e => halt c s n failed (Some e) trace
            | Ok s' => advance c n s' trace
            end
        end
    end.

(** A node may be entered when the run resumes from a pause before it or
    when it is not on the interrupt list. *)
Definition may_enter (resumed : bool) (n : string) : Prop :=
  resumed = true ∨ n ∉ interrupt_before g.

(** Modelled from the spec: the loop, bounded by [fuel] turns; [None]
    when the turns run out before the run returns. *)
Fixpoint loop (fuel : nat) (c : Config) : option (Store * RunResult) :=
  match fuel with
  | O => None
  | S fuel' =>
      match step c with
      | Halt st r => Some (st, r)
      | Continue c' => loop fuel' c'
      end
  end.

(** Modelled from the spec: step 1 of [invoke] for a run that has a
    thread identifier.  [input = None] is the no-input sentinel.  Resuming a
    completed run is a no-op, and so is resuming a failed one (section 7: a
    failed node is re-executed only after the caller resets the status); an
    input for a thread that has a checkpoint is merged as a patch. *)
Definition invoke_thread (fuel : nat) (input : option State) (st : Store)
  : option (Store * RunResult) :=
  match st !! tid, input with
  | Some cp, None =>
      match cp_status cp with
      | completed | failed =>
          Some (st, mkRunResult (cp_state cp) (cp_status cp) None [])
      | paused =>
          loop fuel (mkConfig st (cp_state cp) (cp_next cp) true [])
      | running =>
          loop fuel (mkConfig st (cp_state cp) (cp_next cp) false [])
      end
  | Some cp, Some patch =>
      match merge (schema (graph g)) (cp_state cp) patch with
      | Err e => Some (st, mkRunResult (cp_state cp) (cp_status cp) (Some e) [])
      | Ok s =>
          loop fuel (mkConfig st s (cp_next cp)
                       match cp_status cp with paused => true | _ => false end
                       [])
      end
  | None, Some s => loop fuel (mkConfig st s START false [])
  | None, None => loop fuel (mkConfig st ∅ START false [])
  end.

(** Modelled from the spec: the store's [patch(threadId, partial)]
    ([update_state] in the scripts): merges into the stored state and
    leaves the pending node and the status alone. *)
Definition update_state (partial : Partial) (st : Store) : result Store :=
  match st !! tid with
  | None => Ok st
  | Some cp =>
      s ← merge (schema (graph g)) (cp_state cp) partial;
      Ok (<[tid := mkCheckpoint s (cp_next cp) (cp_status cp)]> st)
  end.

End Run.

(** Every label that a router of [g] can return is a key of its table. *)
Definition tabled (g : CompiledGraph) : Prop :=
  ∀ n router table (s : State) label,
    edges (graph g) !! n = Some (Conditional router table) →
    router s = Ok label → is_Some (table !! label).

Definition routing_error (r : RunResult) : Prop :=
  ∃ label, raised r = Some (RoutingError label).

(** Modelled from the spec: [app.invoke(input)] without a thread
    identifier, a one-shot run on an ephemeral checkpoint. *)
Definition invoke (fuel : nat) (g : CompiledGraph) (input : State)
  : option RunResult :=
  snd <$> invoke_thread g "" fuel (Some input) ∅.

End Engine.

Import Engine.

(** The partial update that one turn of the loop merges into the state:
    the update returned by the node that ran, and nothing when no node ran
    (START, END, a pause, an unknown node) or when the node or the merge
    raised. *)
Definition step_update (g : CompiledGraph) (c : Config) : Partial :=
  let n := c_next c in
  if decide (n = END) then ∅
  else if decide (n = START) then ∅
  else if negb (c_resumed c) && bool_decide (n ∈ interrupt_before g) then ∅
  else
    match nodes (graph g) !! n with
    | None => ∅
    | Some fn =>
        match fn (c_state c) with
        | Err _ => ∅
        | Ok partial =>
            match merge (schema (graph g)) (c_state c) partial with
            | Ok _ => partial
            | Err _ => ∅
            end
        end
    end.

(** The running state after a turn of the loop, returned or carried on. *)
Definition outcome_state (o : outcome) : State :=
  match o with
  | Halt _ r => state r
  | Continue c => c_state c
  end.

(** ** basic_graph.py *)

Module BasicGraph.

(** [class WorkflowState(TypedDict)] *)
Definition WorkflowState : list string :=
  ["document"; "classification"; "extracted_data"; "is_valid"].

Definition classify_document (state : State) : result Partial :=
  v ← getitem state "document";
  doc ← py_lower v;
  let classification :=
    if PyStr.contains "loan" doc then "loan_disclosure"
    else if PyStr.contains "appraisal" doc then "appraisal"
    else "unknown" in
  Ok {[ "classification" := VStr classification ]}.

(** The label [classify_document] computes from the lower-cased text. *)
Definition label_of (doc : string) : string :=
  if PyStr.contains "loan" doc then "loan_disclosure"
  else if PyStr.contains "appraisal" doc then "appraisal"
  else "unknown".

Definition extract_data (state : State) : result Partial :=
  type ← getitem state "classification";
  v ← getitem state "document";
  n ← py_len v;
  let extracted : gmap string value :=
    {[ "type" := type; "has_content" := VBool (bool_decide (0 < n)) ]} in
  Ok {[ "extracted_data" := VDict extracted ]}.

(** [a != "unknown" and b] is [False] when the comparison fails and the
    value of [b] otherwise. *)
Definition validate_data (state : State) : result Partial :=
  c ← getitem state "classification";
  is_valid ←
    (if eq_str c "unknown" then Ok (VBool false)
     else e ← getitem state "extracted_data";
          py_get e "has_content" (VBool false));
  Ok {[ "is_valid" := is_valid ]}.

Definition workflow : result StateGraph :=
  w ← Ok (new_graph WorkflowState);
  w ← add_node "classify" classify_document w;
  w ← add_node "extract" extract_data w;
  w ← add_node "validate" validate_data w;
  w ← add_edge START "classify" w;
  w ← add_edge "classify" "extract" w;
  w ← add_edge "extract" "validate" w;
  add_edge "validate" END w.

Definition app : CompiledGraph := get_ok (workflow ≫= compile []) I.

Definition initial_state : State :=
  {[ "document" := VStr "This is a LOAN disclosure document for $500,000";
     "classification" := VStr "";
     "extracted_data" := VDict ∅;
     "is_valid" := VBool false ]}.

End BasicGraph.

(** ** conditional_graph.py *)

Module ConditionalGraph.

Definition WorkflowState : list string :=
  ["document"; "classification"; "extracted_data"; "error_message"].

Definition classify_document (state : State) : result Partial :=
  v ← getitem state "document";
  doc ← py_lower v;
  let classification :=
    if PyStr.contains "loan" doc then "loan_disclosure"
    else if PyStr.contains "appraisal" doc then "appraisal"
    else "unknown" in
  Ok {[ "classification" := VStr classification ]}.

Definition extract_data (state : State) : result Partial :=
  type ← getitem state "classification";
  let extracted : gmap string value :=
    {[ "type" := type; "processed" := VBool true ]} in
  Ok {[ "extracted_data" := VDict extracted ]}.

Definition handle_unknown (state : State) : result Partial :=
  Ok {[ "error_message" :=
          VStr "Document type not recognized. Please review mannually." ]}.

Definition route_by_classification (state : State) : result string :=
  c ← getitem state "classification";
  if eq_str c "unknown" then Ok "handle_unknown" else Ok "extract".

(** The routing table of the conditional edge out of "classify". *)
Definition routes : gmap string string :=
  {[ "extract" := "extract"; "handle_unknown" := "handle_unknown" ]}.

Definition workflow : result StateGraph :=
  w ← Ok (new_graph WorkflowState);
  w ← add_node "classify" classify_document w;
  w ← add_node "extract" extract_data w;
  w ← add_node "handle_unknown" handle_unknown w;
  w ← add_edge START "classify" w;
  w ← add_conditional_edges "classify" route_by_classification routes w;
  w ← add_edge "extract" END w;
  add_edge "handle_unknown" END w.

Definition app : CompiledGraph := get_ok (workflow ≫= compile []) I.

(** The input of "Test 1". *)
Definition test1_input : State :=
  {[ "document" := VStr "LOAN disclosure for $500,000";
     "classification" := VStr "";
     "extracted_data" := VDict ∅;
     "error_message" := VStr "" ]}.

(** The input of "Test 2": it spells the third key "extrated_data". *)
Definition test2_input : State :=
  {[ "document" := VStr "Random document about something else";
     "classification" := VStr "";
     "extrated_data" := VDict ∅;
     "error_message" := VStr "" ]}.

End ConditionalGraph.

(** ** human_in_loop.py *)

Module HumanInLoop.

Definition ApprovalState : list string :=
  ["document"; "extracted_amount"; "requires_approval"; "approved"; "status"].

Definition extract_amount (state : State) : result Partial :=
  let amount := 500000.00%float in
  let requires_approval := PrimFloat.ltb 100000.0%float amount in
  Ok {[ "extracted_amount" := VFloat amount;
        "requires_approval" := VBool requires_approval ]}.

Definition check_approval_needed (state : State) : result string :=
  r ← getitem state "requires_approval";
  if truthy r then Ok "wait_approval" else Ok "auto_approve".

Definition wait_for_approval (state : State) : result Partial :=
  Ok {[ "status" := VStr "waiting" ]}.

Definition auto_approve (state : State) : result Partial :=
  Ok {[ "approved" := VBool true; "status" := VStr "auto_approved" ]}.

Definition finalize (state : State) : result Partial :=
  a ← getitem state "approved";
  if truthy a then Ok {[ "status" := VStr "complete" ]}
  else Ok {[ "status" := VStr "rejected" ]}.

Definition routes : gmap string string :=
  {[ "wait_approval" := "wait_approval"; "auto_approve" := "auto_approve" ]}.

Definition workflow : result StateGraph :=
  w ← Ok (new_graph ApprovalState);
  w ← add_node "extract" extract_amount w;
  w ← add_node "wait_approval" wait_for_approval w;
  w ← add_node "auto_approve" auto_approve w;
  w ← add_node "finalize" finalize w;
  w ← add_edge START "extract" w;
  w ← add_conditional_edges "extract" check_approval_needed routes w;
  w ← add_edge "wait_approval" "finalize" w;
  w ← add_edge "auto_approve" "finalize" w;
  add_edge "finalize" END w.

(** [workflow.compile(checkpointer=memory, interrupt_before=["finalize"])] *)
Definition app : CompiledGraph :=
  get_ok (workflow ≫= compile ["finalize"]) I.

(** [config = {"configurable": {"thread_id": "loan-123"}}] *)
Definition thread_id : string := "loan-123".

Definition initial_state : State :=
  {[ "document" := VStr "Loan for $500,000";
     "extracted_amount" := VFloat 0.0%float;
     "requires_approval" := VBool false;
     "approved" := VBool false;
     "status" := VStr "" ]}.

(** The three steps of the script: start, approve, resume. *)
Definition script (fuel : nat) : option (RunResult * RunResult) :=
  '(st, result) ← invoke_thread app thread_id fuel (Some initial_state) ∅;
  match update_state app thread_id {[ "approved" := VBool true ]} st with
  | Err _ => None
  | Ok st =>
      '(_, final_result) ← invoke_thread app thread_id fuel None st;
      Some (result, final_result)
  end.

(** The partial update of [extract_amount]: the amount is fixed and it
    is above the threshold. *)
Definition extracted : Partial :=
  {[ "extracted_amount" := VFloat 500000%float;
     "requires_approval" := VBool true ]}.

(** The state in which every first run pauses. *)
Definition waiting (s : State) : State :=
  <[ "status" := VStr "waiting" ]> (extracted ∪ s).

(** The checkpoint of the thread, if there is one, waits before finalize
    or is at the end. *)
Definition gated (tid : string) (st : Store) : Prop :=
  ∀ cp, st !! tid = Some cp → cp_next cp = "finalize" ∨ cp_next cp = END.

Definition only_finalize (trace : list string) : Prop :=
  trace = [] ∨ trace = ["finalize"].

End HumanInLoop.

(** ** ai_workflow.py *)

Module AiWorkflow.

Definition DocumentState : list string :=
  ["document"; "classification"; "extracted_data"; "confidence"; "error"].

Section WithLLM.

(** What the script gets from outside: the formatting of a value inside
    an f-string, and the answer of the model to a prompt that is built
    from the document (the text of the first choice, or the exception
    of the call). *)
Variable py_format : value → string.
Variable classify_completion : string → result string.

(** For the two extraction nodes, the whole of prompt, completion,
    removal of the code fences and validation against the pydantic
    model: the dumped fields of the model, or the exception. *)
Variable loan_data : value → result (gmap string value).
Variable appraisal_data : value → result (gmap string value).

Definition classify_with_llm (state : State) : result Partial :=
  doc ← getitem state "document";
  content ← classify_completion (py_format doc);
  let classification := PyStr.lower (PyStr.strip content) in
  Ok {[ "classification" := VStr classification ]}.

Definition extract_loan_data (state : State) : result Partial :=
  doc ← getitem state "document";
  data ← loan_data doc;
  Ok {[ "extracted_data" := VDict data; "confidence" := VFloat 0.95%float ]}.

Definition extract_appraisal_data (state : State) : result Partial :=
  doc ← getitem state "document";
  data ← appraisal_data doc;
  Ok {[ "extracted_data" := VDict data; "confidence" := VFloat 0.92%float ]}.

Definition handle_unknown (state : State) : result Partial :=
  Ok {[ "error" := VStr "Unrecognized document type. Please review manually.";
        "confidence" := VFloat 0.0%float ]}.

Definition route_by_type (state : State) : result string :=
  c ← getitem state "classification";
  if eq_str c "loan_disclosure" then Ok "extract_loan"
  else if eq_str c "appraisal" then Ok "extract_appraisal"
  else Ok "unknown".

Definition routes : gmap string string :=
  {[ "extract_loan" := "extract_loan";
     "extract_appraisal" := "extract_appraisal";
     "unknown" := "unknown" ]}.

Definition workflow : result StateGraph :=
  w ← Ok (new_graph DocumentState);
  w ← add_node "classify" classify_with_llm w;
  w ← add_node "extract_loan" extract_loan_data w;
  w ← add_node "extract_appraisal" extract_appraisal_data w;
  w ← add_node "unknown" handle_unknown w;
  w ← add_edge START "classify" w;
  w ← add_conditional_edges "classify" route_by_type routes w;
  w ← add_edge "extract_loan" END w;
  w ← add_edge "extract_appraisal" END w;
  add_edge "unknown" END w.

Definition app : CompiledGraph := get_ok (workflow ≫= compile []) I.

End WithLLM.

End AiWorkflow.

Module AiRouting.

(** The node that the conditional edge of ai_workflow leads to when the
    classification is the string [c]. *)
Definition destination (c : string) : string :=
  if bool_decide (c = "loan_disclosure") then "extract_loan"
  else if bool_decide (c = "appraisal") then "extract_appraisal"
  else "unknown".

End AiRouting.

(** ** A graph whose router leaves its table

The conditional_graph wired with a router that answers with a label the
routing table does not have; it is used to exercise the failure path of
step 2(d). *)

Module Misrouted.

Definition route_to_review (state : State) : result string := Ok "review".

Definition workflow : result StateGraph :=
  w ← Ok (new_graph ConditionalGraph.WorkflowState);
  w ← add_node "classify" ConditionalGraph.classify_document w;
  w ← add_node "extract" ConditionalGraph.extract_data w;
  w ← add_node "handle_unknown" ConditionalGraph.handle_unknown w;
  w ← add_edge START "classify" w;
  w ← add_conditional_edges "classify" route_to_review ConditionalGraph.routes w;
  w ← add_edge "extract" END w;
  add_edge "handle_unknown" END w.

Definition app : CompiledGraph := get_ok (workflow ≫= compile []) I.

End Misrouted.

(** ** Sessions

What a client does with one thread identifier: a sequence of [invoke]
calls (with an input or with [None]) and [update_state] calls.  A session
yields the final store and the names of all nodes that were entered, in
order; an [update_state] that raises leaves the store as it was. *)

Inductive call : Type :=
| Invoke (input : option State)
| UpdateState (partial : Partial).

Fixpoint session (fuel : nat) (g : CompiledGraph) (tid : string)
    (calls : list call) (st : Store) : option (Store * list string) :=
  match calls with
  | [] => Some (st, [])
  | Invoke input :: rest =>
      '(st1, r) ← invoke_thread g tid fuel input st;
      '(st2, trace) ← session fuel g tid rest st1;
      Some (st2, (executed r ++ trace)%list)
  | UpdateState partial :: rest =>
      match update_state g tid partial st with
      | Ok st1 => session fuel g tid rest st1
      | Err _ => session fuel g tid rest st
      end
  end.

(** * Properties *)

(** ** Strings *)

Example lower_LOAN : PyStr.lower "This is a LOAN" = "this is a loan".
Proof. reflexivity. Qed.

Example strip_answer : PyStr.strip "  Loan_Disclosure  " = "Loan_Disclosure".
Proof. reflexivity. Qed.

Module PyStrFacts.
Import PyStr.

Lemma startswith_spec p s :
  startswith p s = true ↔ ∃ b, s = String.append p b.
Proof.
  revert s. induction p as [|a p IH]; intros s; simpl.
  - split; [eauto | done].
  - destruct s as [|c s]; simpl.
    + split; [done | intros [b Hb]; discriminate].
    + rewrite andb_true_iff, bool_decide_eq_true, IH. split.
      * intros [-> [b ->]]. eauto.
      * intros [b Hb]. injection Hb as -> ->. eauto.
Qed.

(** [contains] is the substring test: some prefix and suffix surround
    the needle. *)
Lemma contains_spec sub s :
  contains sub s = true ↔ ∃ a b, s = String.append a (String.append sub b).
Proof.
  induction s as [|c s IH].
  - simpl. rewrite orb_false_r, startswith_spec. split.
    + intros [b Hb]. exists EmptyString, b. done.
    + intros [a [b Hab]]. destruct a; [eauto | discriminate].
  - cbn [contains]. rewrite orb_true_iff, startswith_spec, IH. split.
    + intros [[b Hb] | [a [b Hab]]].
      * exists EmptyString, b. done.
      * exists (String c a), b. simpl. by rewrite Hab.
    + intros [a [b Hab]]. destruct a as [|c' a]; simpl in Hab.
      * left. eauto.
      * right. injection Hab as -> ->. eauto.
Qed.

Lemma lower_append a b :
  lower (String.append a b) = String.append (lower a) (lower b).
Proof. induction a as [|c a IH]; simpl; [done | by rewrite IH]. Qed.

Lemma contains_lower sub s :
  contains sub s = true → contains (lower sub) (lower s) = true.
Proof.
  rewrite !contains_spec. intros [a [b ->]].
  exists (lower a), (lower b). by rewrite !lower_append.
Qed.

Lemma contains_nonempty sub s :
  contains sub s = true → sub ≠ EmptyString → 0 < String.length s.
Proof.
  intros H Hsub. destruct s as [|c s]; simpl; [|lia].
  simpl in H. destruct sub; [done | discriminate].
Qed.

End PyStrFacts.

(** ** Engine: merge and the step loop *)

Module EngineFacts.

(** Closes a decidable goal over literal keys and lists by evaluation. *)
Ltac in_fields :=
  match goal with |- ?P => apply (bool_decide_unpack P) end;
  vm_compute; exact I.

(** Evaluates the reads of a node function: unfolds the sequencing of
    [result] and rewrites the lookups with the facts at hand, without
    touching the representation of the maps. *)
Ltac eval_reads :=
  unfold getitem, mbind, result_bind;
  repeat first
    [ rewrite lookup_insert_eq
    | rewrite lookup_insert_ne by discriminate
    | match goal with H : _ !! _ = _ |- _ => rewrite H end ];
  cbv beta iota.

Lemma merge_ok sch (s : State) (p : Partial) :
  dom p ⊆ sch → merge sch s p = Ok (p ∪ s).
Proof. intros H. unfold merge. by rewrite decide_True. Qed.

Lemma merge_err sch (s : State) (p : Partial) :
  ¬ dom p ⊆ sch → merge sch s p = Err UnknownFieldError.
Proof. intros H. unfold merge. by rewrite decide_False. Qed.

Lemma merge_inv sch (s : State) (p : Partial) s' :
  merge sch s p = Ok s' → dom p ⊆ sch ∧ s' = p ∪ s.
Proof. unfold merge. case_decide; [|done]. intros [= <-]. done. Qed.

(** Keys outside the partial update keep their value (or absence). *)
Lemma merge_frame sch (s : State) (p : Partial) s' k :
  merge sch s p = Ok s' → p !! k = None → s' !! k = s !! k.
Proof.
  intros [_ ->]%merge_inv Hk. by rewrite lookup_union_r.
Qed.

(** Keys of the partial update take its value. *)
Lemma merge_written sch (s : State) (p : Partial) s' k v :
  merge sch s p = Ok s' → p !! k = Some v → s' !! k = Some v.
Proof.
  intros [_ ->]%merge_inv Hk. by erewrite lookup_union_Some_l.
Qed.

Lemma merge_dom sch (s : State) (p : Partial) s' :
  merge sch s p = Ok s' → dom s ⊆ dom s'.
Proof. intros [_ ->]%merge_inv. rewrite dom_union_L. set_solver. Qed.

Section Steps.
Context (g : CompiledGraph) (tid : string).

Lemma next_static n d s :
  edges (graph g) !! n = Some (Static d) → next_transition g n s = Ok d.
Proof. intros H. unfold next_transition. by rewrite H. Qed.

Lemma next_conditional n router table s label d :
  edges (graph g) !! n = Some (Conditional router table) →
  router s = Ok label → table !! label = Some d →
  next_transition g n s = Ok d.
Proof. intros H Hr Ht. unfold next_transition. by rewrite H, Hr, Ht. Qed.

Lemma next_untabled n router table s label :
  edges (graph g) !! n = Some (Conditional router table) →
  router s = Ok label → table !! label = None →
  next_transition g n s = Err (RoutingError label).
Proof. intros H Hr Ht. unfold next_transition. by rewrite H, Hr, Ht. Qed.

Lemma loop_halt fuel c st r :
  step g tid c = Halt st r → loop g tid (S fuel) c = Some (st, r).
Proof. intros H. simpl. by rewrite H. Qed.

Lemma loop_continue fuel c c' :
  step g tid c = Continue c' → loop g tid (S fuel) c = loop g tid fuel c'.
Proof. intros H. simpl. by rewrite H. Qed.

(** More fuel does not change the result of a run that finished. *)
Lemma loop_mono fuel fuel' c x :
  loop g tid fuel c = Some x → (fuel ≤ fuel')%nat →
  loop g tid fuel' c = Some x.
Proof.
  revert fuel' c. induction fuel as [|fuel IH]; intros fuel' c; [done|].
  destruct fuel' as [|fuel']; [lia|]. simpl.
  destruct (step g tid c); [done|]. intros H Hle. apply IH; [done | lia].
Qed.

(** Step 2(a): START resolves to the first node and runs nothing. *)
Lemma step_start st s resumed trace d :
  next_transition g START s = Ok d → d ≠ END →
  step g tid (mkConfig st s START resumed trace)
  = Continue (mkConfig st s d false trace).
Proof.
  intros Hd Hne. unfold step, advance.
  cbn [c_next c_state c_store c_executed c_resumed].
  rewrite (decide_False (P := START = END)) by done.
  rewrite (decide_True (P := START = START)) by done.
  rewrite Hd. rewrite (decide_False (P := d = END)) by done.
  by rewrite decide_True.
Qed.

(** Step 2(b): the candidate is on the interrupt list. *)
Lemma step_pause st s n trace :
  n ≠ END → n ≠ START → n ∈ interrupt_before g →
  step g tid (mkConfig st s n false trace)
  = Halt (<[tid := mkCheckpoint s n paused]> st)
         (mkRunResult s paused None trace).
Proof.
  intros H1 H2 Hin. unfold step.
  cbn [c_next c_state c_store c_executed c_resumed].
  rewrite !decide_False by done. by rewrite bool_decide_true.
Qed.

Lemma step_enter st s n resumed trace fn :
  n ≠ END → n ≠ START → may_enter g resumed n →
  nodes (graph g) !! n = Some fn →
  step g tid (mkConfig st s n resumed trace)
  = let c := mkConfig st s n resumed trace in
    let trace' := (trace ++ [n])%list in
    match fn s with
    | Err e => halt tid c s n failed (Some (NodeExecutionError e)) trace'
    | Ok partial =>
        match merge (schema (graph g)) s partial with
        | Err e => halt tid c s n failed (Some e) trace'
        | Ok s' => advance g tid c n s' trace'
        end
    end.
Proof.
  intros H1 H2 Hent Hfn. unfold step.
  cbn [c_next c_state c_store c_executed c_resumed].
  rewrite !decide_False by done.
  replace (negb resumed && bool_decide (n ∈ interrupt_before g)) with false.
  - by rewrite Hfn.
  - destruct Hent as [-> | Hn]; [done|].
    rewrite bool_decide_false by done. by rewrite andb_false_r.
Qed.

(** Steps 2(c), 2(d), 2(f): the node runs and the run moves on. *)
Lemma step_exec st s n resumed trace fn p s' d :
  n ≠ END → n ≠ START → may_enter g resumed n →
  nodes (graph g) !! n = Some fn →
  fn s = Ok p → merge (schema (graph g)) s p = Ok s' →
  next_transition g n s' = Ok d → d ≠ END →
  step g tid (mkConfig st s n resumed trace)
  = Continue (mkConfig (<[tid := mkCheckpoint s' d running]> st) s' d false
                       (trace ++ [n])).
Proof.
  intros H1 H2 Hent Hfn Hp Hm Hd Hne.
  rewrite (step_enter _ _ _ _ _ fn) by done. simpl.
  rewrite Hp, Hm. unfold advance. rewrite Hd.
  rewrite !decide_False by done. done.
Qed.

(** Steps 2(c), 2(d), 2(e): the node runs and leads to END. *)
Lemma step_exec_end st s n resumed trace fn p s' :
  n ≠ END → n ≠ START → may_enter g resumed n →
  nodes (graph g) !! n = Some fn →
  fn s = Ok p → merge (schema (graph g)) s p = Ok s' →
  next_transition g n s' = Ok END →
  step g tid (mkConfig st s n resumed trace)
  = Halt (<[tid := mkCheckpoint s' END completed]> st)
         (mkRunResult s' completed None (trace ++ [n])).
Proof.
  intros H1 H2 Hent Hfn Hp Hm Hd.
  rewrite (step_enter _ _ _ _ _ fn) by done. simpl.
  rewrite Hp, Hm. unfold advance. rewrite Hd.
  by rewrite decide_True.
Qed.

(** Step 2(d), failing: the transition out of the node that ran cannot
    be resolved. *)
Lemma step_exec_unrouted st s n resumed trace fn p s' e :
  n ≠ END → n ≠ START → may_enter g resumed n →
  nodes (graph g) !! n = Some fn →
  fn s = Ok p → merge (schema (graph g)) s p = Ok s' →
  next_transition g n s' = Err e →
  step g tid (mkConfig st s n resumed trace)
  = Halt (<[tid := mkCheckpoint s' n failed]> st)
         (mkRunResult s' failed (Some e) (trace ++ [n])).
Proof.
  intros H1 H2 Hent Hfn Hp Hm Hd.
  rewrite (step_enter _ _ _ _ _ fn) by done. simpl.
  rewrite Hp, Hm. unfold advance. by rewrite Hd.
Qed.

(** Step 3: the node function raises. *)
Lemma step_exec_raise st s n resumed trace fn e :
  n ≠ END → n ≠ START → may_enter g resumed n →
  nodes (graph g) !! n = Some fn → fn s = Err e →
  step g tid (mkConfig st s n resumed trace)
  = Halt (<[tid := mkCheckpoint s n failed]> st)
         (mkRunResult s failed (Some (NodeExecutionError e)) (trace ++ [n])).
Proof.
  intros H1 H2 Hent Hfn He.
  rewrite (step_enter _ _ _ _ _ fn) by done. simpl. by rewrite He.
Qed.

End Steps.

(** A run without thread identifier that finished with some fuel gives the
    same result with more. *)
Lemma invoke_mono fuel fuel' g (s : State) r :
  invoke fuel g s = Some r → (fuel ≤ fuel')%nat → invoke fuel' g s = Some r.
Proof.
  unfold invoke, invoke_thread. rewrite lookup_empty.
  destruct (loop g EmptyString fuel _) as [x|] eqn:Hloop; [|done].
  intros Hr Hle. by rewrite (loop_mono _ _ _ _ _ _ Hloop Hle).
Qed.

End EngineFacts.

(** ** basic_graph.py *)

Module BasicGraphFacts.
Import BasicGraph EngineFacts.

Lemma basic_app_schema : schema (graph app) = list_to_set WorkflowState.
Proof. reflexivity. Qed.

Lemma basic_app_interrupt : interrupt_before app = [].
Proof. reflexivity. Qed.

Lemma basic_app_nodes :
  nodes (graph app) !! "classify" = Some classify_document
  ∧ nodes (graph app) !! "extract" = Some extract_data
  ∧ nodes (graph app) !! "validate" = Some validate_data.
Proof. repeat split; reflexivity. Qed.

Lemma basic_app_edges :
  edges (graph app) !! START = Some (Static "classify")
  ∧ edges (graph app) !! "classify" = Some (Static "extract")
  ∧ edges (graph app) !! "extract" = Some (Static "validate")
  ∧ edges (graph app) !! "validate" = Some (Static END).
Proof. repeat split; reflexivity. Qed.

Lemma basic_app_may_enter resumed n : may_enter app resumed n.
Proof. right. rewrite basic_app_interrupt. apply not_elem_of_nil. Qed.

Lemma basic_classify_document_str (s : State) d :
  s !! "document" = Some (VStr d) →
  classify_document s
  = Ok {[ "classification" := VStr (label_of (PyStr.lower d)) ]}.
Proof. intros H. unfold classify_document. by eval_reads. Qed.

Lemma basic_extract_data_str (s : State) c d :
  s !! "classification" = Some c → s !! "document" = Some (VStr d) →
  extract_data s
  = Ok {[ "extracted_data" :=
            VDict {[ "type" := c;
                     "has_content" := VBool (bool_decide (0 < String.length d)) ]} ]}.
Proof. intros H1 H2. unfold extract_data. by eval_reads. Qed.

Lemma basic_validate_data_known (s : State) c e :
  s !! "classification" = Some (VStr c) → c ≠ "unknown" →
  s !! "extracted_data" = Some (VDict e) →
  validate_data s
  = Ok {[ "is_valid" := default (VBool false) (e !! "has_content") ]}.
Proof.
  intros H1 Hc H2. unfold validate_data. eval_reads.
  unfold eq_str. rewrite bool_decide_false by done. by eval_reads.
Qed.

(** A partial update with one declared field is accepted by [merge]. *)
Lemma basic_merge_field (s : State) k v :
  k ∈ WorkflowState →
  merge (schema (graph app)) s {[ k := v ]} = Ok (<[ k := v ]> s).
Proof.
  intros Hk. rewrite merge_ok.
  - by rewrite insert_union_singleton_l.
  - rewrite basic_app_schema, dom_singleton_L. set_solver.
Qed.

Lemma basic_run_loan (s : State) d fuel :
  s !! "document" = Some (VStr d) →
  PyStr.contains "LOAN" d = true →
  ∃ extracted,
    invoke (4 + fuel) app s
    = Some (mkRunResult
              (<[ "is_valid" := VBool true ]>
                 (<[ "extracted_data" := VDict extracted ]>
                    (<[ "classification" := VStr "loan_disclosure" ]> s)))
              completed None ["classify"; "extract"; "validate"]).
Proof.
  intros Hdoc Hloan.
  destruct basic_app_nodes as (Hn1 & Hn2 & Hn3).
  destruct basic_app_edges as (He0 & He1 & He2 & He3).
  assert (Hlab : label_of (PyStr.lower d) = "loan_disclosure").
  { unfold label_of.
    pose proof (PyStrFacts.contains_lower "LOAN" d Hloan) as Hlow.
    change (PyStr.lower "LOAN") with "loan" in Hlow. by rewrite Hlow. }
  assert (Hlen : 0 < String.length d).
  { by apply (PyStrFacts.contains_nonempty "LOAN"). }
  set (ex := ({[ "type" := VStr "loan_disclosure";
                 "has_content" := VBool true ]} : gmap string value)).
  exists ex.
  unfold invoke, invoke_thread. rewrite lookup_empty.
  change (4 + fuel) with (S (S (S (S fuel)))).
  erewrite loop_continue
    by (apply step_start; [by apply next_static | done]).
  erewrite loop_continue.
  2:{ eapply step_exec;
      [done | done | apply basic_app_may_enter | exact Hn1
      | by apply basic_classify_document_str
      | rewrite Hlab; apply basic_merge_field; in_fields
      | by apply next_static | done]. }
  erewrite loop_continue.
  2:{ eapply step_exec;
      [done | done | apply basic_app_may_enter | exact Hn2
      | apply (basic_extract_data_str _ (VStr "loan_disclosure") d);
        [apply lookup_insert_eq | by rewrite lookup_insert_ne]
      | rewrite bool_decide_true by done; apply basic_merge_field; in_fields
      | by apply next_static | done]. }
  erewrite loop_halt.
  2:{ eapply step_exec_end;
      [done | done | apply basic_app_may_enter | exact Hn3
      | apply (basic_validate_data_known _ "loan_disclosure" ex);
        [ by rewrite lookup_insert_ne, lookup_insert_eq | done
        | apply lookup_insert_eq ]
      | apply basic_merge_field; in_fields
      | by apply next_static ]. }
  done.
Qed.

End BasicGraphFacts.

(** ** conditional_graph.py *)

Module ConditionalGraphFacts.
Import ConditionalGraph EngineFacts.

Lemma cond_app_schema : schema (graph app) = list_to_set WorkflowState.
Proof. reflexivity. Qed.

Lemma cond_app_interrupt : interrupt_before app = [].
Proof. reflexivity. Qed.

Lemma cond_app_nodes :
  nodes (graph app) !! "classify" = Some classify_document
  ∧ nodes (graph app) !! "extract" = Some extract_data
  ∧ nodes (graph app) !! "handle_unknown" = Some handle_unknown.
Proof. repeat split; reflexivity. Qed.

Lemma cond_app_edges :
  edges (graph app)
  = <[ "handle_unknown" := Static END ]>
      (<[ "extract" := Static END ]>
         (<[ "classify" := Conditional route_by_classification routes ]>
            (<[ START := Static "classify" ]> ∅))).
Proof. reflexivity. Qed.

Lemma cond_app_may_enter resumed n : may_enter app resumed n.
Proof. right. rewrite cond_app_interrupt. apply not_elem_of_nil. Qed.

Lemma cond_classify_document_str (s : State) d :
  s !! "document" = Some (VStr d) →
  classify_document s
  = Ok {[ "classification" :=
            VStr (BasicGraph.label_of (PyStr.lower d)) ]}.
Proof. intros H. unfold classify_document. by eval_reads. Qed.

Lemma cond_merge_field (s : State) k v :
  k ∈ WorkflowState →
  merge (schema (graph app)) s {[ k := v ]} = Ok (<[ k := v ]> s).
Proof.
  intros Hk. rewrite merge_ok.
  - by rewrite insert_union_singleton_l.
  - rewrite cond_app_schema, dom_singleton_L. set_solver.
Qed.

Lemma cond_route_unknown (s : State) :
  s !! "classification" = Some (VStr "unknown") →
  route_by_classification s = Ok "handle_unknown".
Proof. intros H. unfold route_by_classification. by eval_reads. Qed.

Lemma cond_route_known (s : State) c :
  s !! "classification" = Some (VStr c) → c ≠ "unknown" →
  route_by_classification s = Ok "extract".
Proof.
  intros H Hc. unfold route_by_classification. eval_reads.
  unfold eq_str. by rewrite bool_decide_false.
Qed.

(** The labels of the router are keys of the routing table. *)
Lemma cond_route_tabled (s : State) label :
  route_by_classification s = Ok label → is_Some (routes !! label).
Proof.
  unfold route_by_classification, getitem, mbind, result_bind.
  destruct (s !! "classification") as [c|]; [|done].
  destruct (eq_str c "unknown"); intros [= <-]; by eexists.
Qed.

(** A document that is a string without "loan" or "appraisal" in its
    lower-cased text goes through classify and handle_unknown only. *)
Lemma cond_run_unknown (s : State) d fuel :
  s !! "document" = Some (VStr d) →
  BasicGraph.label_of (PyStr.lower d) = "unknown" →
  invoke (3 + fuel) app s
  = Some (mkRunResult
            (<[ "error_message" :=
                  VStr "Document type not recognized. Please review mannually." ]>
               (<[ "classification" := VStr "unknown" ]> s))
            completed None ["classify"; "handle_unknown"]).
Proof.
  intros Hdoc Hlab.
  destruct cond_app_nodes as (Hn1 & Hn2 & Hn3).
  unfold invoke, invoke_thread. rewrite lookup_empty.
  change (3 + fuel) with (S (S (S fuel))).
  erewrite loop_continue
    by (apply step_start; [apply next_static; by rewrite cond_app_edges | done]).
  erewrite loop_continue.
  2:{ eapply step_exec;
      [done | done | apply cond_app_may_enter | exact Hn1
      | by apply cond_classify_document_str
      | rewrite Hlab; apply cond_merge_field; in_fields
      | eapply next_conditional;
        [ by rewrite cond_app_edges | apply cond_route_unknown, lookup_insert_eq
        | reflexivity ]
      | done]. }
  erewrite loop_halt.
  2:{ eapply step_exec_end;
      [done | done | apply cond_app_may_enter | exact Hn3
      | reflexivity
      | apply cond_merge_field; in_fields
      | apply next_static; by rewrite cond_app_edges ]. }
  done.
Qed.

Lemma cond_extract_data_val (s : State) c :
  s !! "classification" = Some c →
  extract_data s
  = Ok {[ "extracted_data" :=
            VDict {[ "type" := c; "processed" := VBool true ]} ]}.
Proof. intros H. unfold extract_data. by eval_reads. Qed.

(** A document that is a string with "loan" or "appraisal" in its
    lower-cased text goes through classify and extract. *)
Lemma cond_run_known (s : State) d fuel :
  s !! "document" = Some (VStr d) →
  BasicGraph.label_of (PyStr.lower d) ≠ "unknown" →
  invoke (3 + fuel) app s
  = Some (mkRunResult
            (<[ "extracted_data" :=
                  VDict {[ "type" := VStr (BasicGraph.label_of (PyStr.lower d));
                           "processed" := VBool true ]} ]>
               (<[ "classification" :=
                     VStr (BasicGraph.label_of (PyStr.lower d)) ]> s))
            completed None ["classify"; "extract"]).
Proof.
  intros Hdoc Hlab.
  destruct cond_app_nodes as (Hn1 & Hn2 & Hn3).
  unfold invoke, invoke_thread. rewrite lookup_empty.
  change (3 + fuel) with (S (S (S fuel))).
  erewrite loop_continue
    by (apply step_start; [apply next_static; by rewrite cond_app_edges | done]).
  erewrite loop_continue.
  2:{ eapply step_exec;
      [done | done | apply cond_app_may_enter | exact Hn1
      | by apply cond_classify_document_str
      | apply cond_merge_field; in_fields
      | eapply next_conditional;
        [ by rewrite cond_app_edges
        | by eapply cond_route_known; [apply lookup_insert_eq|]
        | reflexivity ]
      | done]. }
  erewrite loop_halt.
  2:{ eapply step_exec_end;
      [done | done | apply cond_app_may_enter | exact Hn2
      | apply cond_extract_data_val, lookup_insert_eq
      | apply cond_merge_field; in_fields
      | apply next_static; by rewrite cond_app_edges ]. }
  done.
Qed.

End ConditionalGraphFacts.

(** ** human_in_loop.py *)

Module HumanInLoopFacts.
Import HumanInLoop EngineFacts.

Lemma hil_app_schema : schema (graph app) = list_to_set ApprovalState.
Proof. reflexivity. Qed.

Lemma hil_app_interrupt : interrupt_before app = ["finalize"].
Proof. reflexivity. Qed.

Lemma hil_app_nodes :
  nodes (graph app)
  = <[ "finalize" := finalize ]>
      (<[ "auto_approve" := auto_approve ]>
         (<[ "wait_approval" := wait_for_approval ]>
            (<[ "extract" := extract_amount ]> ∅))).
Proof. reflexivity. Qed.

Lemma hil_app_edges :
  edges (graph app)
  = <[ "finalize" := Static END ]>
      (<[ "auto_approve" := Static "finalize" ]>
         (<[ "wait_approval" := Static "finalize" ]>
            (<[ "extract" := Conditional check_approval_needed routes ]>
               (<[ START := Static "extract" ]> ∅)))).
Proof. reflexivity. Qed.

Lemma may_enter_other resumed n : n ≠ "finalize" → may_enter app resumed n.
Proof.
  intros Hn. right. rewrite hil_app_interrupt.
  by intros ->%list_elem_of_singleton.
Qed.

Lemma extract_amount_val (s : State) : extract_amount s = Ok extracted.
Proof. reflexivity. Qed.

Lemma hil_merge_declared (s : State) (p : Partial) :
  dom p ⊆ list_to_set ApprovalState →
  merge (schema (graph app)) s p = Ok (p ∪ s).
Proof. intros H. apply merge_ok. by rewrite hil_app_schema. Qed.

Lemma hil_merge_extracted (s : State) :
  merge (schema (graph app)) s extracted = Ok (extracted ∪ s).
Proof. apply hil_merge_declared. in_fields. Qed.

Lemma hil_merge_field (s : State) k v :
  k ∈ ApprovalState →
  merge (schema (graph app)) s {[ k := v ]} = Ok (<[ k := v ]> s).
Proof.
  intros Hk. rewrite hil_merge_declared.
  - by rewrite insert_union_singleton_l.
  - rewrite dom_singleton_L. set_solver.
Qed.

(** After [extract_amount] the router always asks for the approval. *)
Lemma check_after_extract (s : State) :
  check_approval_needed (extracted ∪ s) = Ok "wait_approval".
Proof.
  unfold check_approval_needed, getitem, mbind, result_bind.
  by erewrite lookup_union_Some_l by reflexivity.
Qed.

Lemma check_tabled (s : State) label :
  check_approval_needed s = Ok label → is_Some (routes !! label).
Proof.
  unfold check_approval_needed, getitem, mbind, result_bind.
  destruct (s !! "requires_approval") as [r|]; [|done].
  destruct (truthy r); intros [= <-]; by eexists.
Qed.

(** Step 1 of the script, for any input and any thread that has no
    checkpoint yet. *)
Lemma hil_run_first (s : State) tid (st : Store) fuel :
  st !! tid = None →
  invoke_thread app tid (4 + fuel) (Some s) st
  = Some (<[ tid := mkCheckpoint (waiting s) "finalize" paused ]> st,
          mkRunResult (waiting s) paused None ["extract"; "wait_approval"]).
Proof.
  intros Hfresh. unfold invoke_thread. rewrite Hfresh.
  change (4 + fuel) with (S (S (S (S fuel)))).
  erewrite loop_continue
    by (apply step_start; [apply next_static; by rewrite hil_app_edges | done]).
  erewrite loop_continue.
  2:{ eapply step_exec;
      [done | done | by apply may_enter_other | by rewrite hil_app_nodes
      | apply extract_amount_val | apply hil_merge_extracted
      | eapply next_conditional;
        [ by rewrite hil_app_edges | apply check_after_extract | reflexivity ]
      | done]. }
  erewrite loop_continue.
  2:{ eapply step_exec;
      [done | done | by apply may_enter_other | by rewrite hil_app_nodes
      | reflexivity | apply hil_merge_field; in_fields
      | apply next_static; by rewrite hil_app_edges | done]. }
  erewrite loop_halt.
  2:{ apply step_pause; [done | done |].
      rewrite hil_app_interrupt. by apply list_elem_of_singleton. }
  by rewrite !insert_insert_eq.
Qed.

Lemma finalize_val (s : State) a :
  s !! "approved" = Some a →
  finalize s
  = Ok {[ "status" := VStr (if truthy a then "complete" else "rejected") ]}.
Proof.
  intros H. unfold finalize. eval_reads. by destruct (truthy a).
Qed.

Lemma finalize_raise (s : State) :
  s !! "approved" = None → finalize s = Err (KeyError "approved").
Proof. intros H. unfold finalize. by eval_reads. Qed.

(** Entering finalize (after a pause, or where it is not gated). *)
Lemma step_finalize tid (st : Store) (s : State) trace :
  ∃ st' r,
    step app tid (mkConfig st s "finalize" true trace) = Halt st' r
    ∧ executed r = (trace ++ ["finalize"])%list
    ∧ st' = <[ tid := mkCheckpoint (state r)
                        match run_status r with completed => END | _ => "finalize" end
                        (run_status r) ]> st
    ∧ match s !! "approved" with
      | Some a =>
          run_status r = completed ∧ raised r = None
          ∧ state r
            = <[ "status" := VStr (if truthy a then "complete" else "rejected") ]> s
      | None =>
          run_status r = failed ∧ state r = s
          ∧ raised r = Some (NodeExecutionError (KeyError "approved"))
      end.
Proof.
  destruct (s !! "approved") as [a|] eqn:Ha.
  - eexists _, _. split.
    + eapply step_exec_end;
        [done | done | by left | by rewrite hil_app_nodes
        | by apply finalize_val | apply hil_merge_field; in_fields
        | apply next_static; by rewrite hil_app_edges ].
    + done.
  - eexists _, _. split.
    + eapply step_exec_raise;
        [done | done | by left | by rewrite hil_app_nodes
        | by apply finalize_raise ].
    + done.
Qed.

(** [update_state] on a thread that has a checkpoint, for one declared
    field. *)
Lemma hil_update_field tid (st : Store) cp k v :
  st !! tid = Some cp → k ∈ ApprovalState →
  update_state app tid {[ k := v ]} st
  = Ok (<[ tid := mkCheckpoint (<[ k := v ]> (cp_state cp)) (cp_next cp)
                    (cp_status cp) ]> st).
Proof.
  intros Hcp Hk. unfold update_state. rewrite Hcp.
  by rewrite hil_merge_field.
Qed.

End HumanInLoopFacts.

(** ** Engine: properties of every run *)

Module EngineInvariants.
Import EngineFacts.

Section Invariants.
Context (g : CompiledGraph) (tid : string).

Lemma next_transition_tabled n (s : State) label :
  tabled g → next_transition g n s ≠ Err (RoutingError label).
Proof.
  intros Htab. unfold next_transition.
  destruct (edges (graph g) !! n) as [[d|router table]|] eqn:He; [done| |done].
  destruct (router s) as [l|e] eqn:Hr; [|done].
  destruct (Htab _ _ _ _ _ He Hr) as [d ->]. done.
Qed.

Lemma advance_halt c n (s : State) trace st r :
  advance g tid c n s trace = Halt st r →
  state r = s ∧ executed r = trace
  ∧ (raised r = None ∨ ∃ e, next_transition g n s = Err e ∧ raised r = Some e).
Proof.
  unfold advance, halt.
  destruct (next_transition g n s) as [d|e] eqn:Hd.
  - case_decide; [|done]. intros [= <- <-]. simpl. by auto.
  - intros [= <- <-]. simpl. split_and!; [done..|]. right. by exists e.
Qed.

Lemma advance_continue c n (s : State) trace c' :
  advance g tid c n s trace = Continue c' →
  c_state c' = s ∧ c_executed c' = trace
  ∧ next_transition g n s = Ok (c_next c').
Proof.
  unfold advance, halt.
  destruct (next_transition g n s) as [d|e] eqn:Hd; [|done].
  case_decide; [done|]. intros [= <-]. done.
Qed.

(** What a halting step can report. *)
Lemma step_halt_raised c st r :
  tabled g → step g tid c = Halt st r → ¬ routing_error r.
Proof.
  intros Htab. unfold step. cbv zeta.
  destruct (decide (c_next c = END)) as [_|_]; [by intros [= <- <-] [l Hl]|].
  destruct (decide (c_next c = START)) as [_|_].
  - intros (_ & _ & [Hno | (err & He & Hr)])%advance_halt [l Hl].
    + by rewrite Hno in Hl.
    + rewrite Hr in Hl. injection Hl as ->.
      by apply next_transition_tabled in He.
  - destruct (negb _ && _); [by intros [= <- <-] [l Hl]|].
    destruct (nodes (graph g) !! c_next c) as [fn|];
      [|by intros [= <- <-] [l Hl]].
    destruct (fn (c_state c)) as [p|e]; [|by intros [= <- <-] [l Hl]].
    unfold merge. case_decide; [|by intros [= <- <-] [l Hl]].
    intros (_ & _ & [Hno | (err & He & Hr)])%advance_halt [l Hl].
    + by rewrite Hno in Hl.
    + rewrite Hr in Hl. injection Hl as ->.
      by apply next_transition_tabled in He.
Qed.

Lemma loop_no_routing_error fuel c st r :
  tabled g → loop g tid fuel c = Some (st, r) → ¬ routing_error r.
Proof.
  intros Htab. revert c. induction fuel as [|fuel IH]; intros c; [done|].
  simpl. destruct (step g tid c) as [st0 r0|c'] eqn:Hstep.
  - intros [= <- <-]. by eapply step_halt_raised.
  - apply IH.
Qed.

(** A graph whose routers stay within their tables never fails a run
    with a [RoutingError]. *)
Lemma invoke_no_routing_error fuel input st st' r :
  tabled g → invoke_thread g tid fuel input st = Some (st', r) →
  ¬ routing_error r.
Proof.
  intros Htab. unfold invoke_thread.
  destruct (st !! tid) as [cp|], input as [s|];
    try by apply loop_no_routing_error.
  - destruct (merge _ _ _) as [s'|e] eqn:Hm;
      [by apply loop_no_routing_error|].
    unfold merge in Hm. case_decide; [done|]. injection Hm as <-.
    by intros [= <- <-] [l Hl].
  - destruct (cp_status cp); try by apply loop_no_routing_error.
    all: by intros [= <- <-] [l Hl].
Qed.

(** Fields are never removed from the running state. *)
Lemma step_halt_dom c st r :
  step g tid c = Halt st r → dom (c_state c) ⊆ dom (state r).
Proof.
  unfold step. cbv zeta.
  destruct (decide (c_next c = END)) as [_|_]; [by intros [= <- <-]|].
  destruct (decide (c_next c = START)) as [_|_].
  - by intros (-> & _)%advance_halt.
  - destruct (negb _ && _); [by intros [= <- <-]|].
    destruct (nodes (graph g) !! c_next c) as [fn|]; [|by intros [= <- <-]].
    destruct (fn (c_state c)) as [p|e]; [|by intros [= <- <-]].
    destruct (merge _ _ p) as [s'|e] eqn:Hm; [|by intros [= <- <-]].
    intros (-> & _)%advance_halt. by eapply merge_dom.
Qed.

Lemma step_continue_dom c c' :
  step g tid c = Continue c' → dom (c_state c) ⊆ dom (c_state c').
Proof.
  unfold step. cbv zeta.
  destruct (decide (c_next c = END)) as [_|_]; [done|].
  destruct (decide (c_next c = START)) as [_|_].
  - by intros (-> & _)%advance_continue.
  - destruct (negb _ && _); [done|].
    destruct (nodes (graph g) !! c_next c) as [fn|]; [|done].
    destruct (fn (c_state c)) as [p|e]; [|done].
    destruct (merge _ _ p) as [s'|e] eqn:Hm; [|done].
    intros (-> & _)%advance_continue. by eapply merge_dom.
Qed.

Lemma loop_dom fuel c st r :
  loop g tid fuel c = Some (st, r) → dom (c_state c) ⊆ dom (state r).
Proof.
  revert c. induction fuel as [|fuel IH]; intros c; [done|].
  simpl. destruct (step g tid c) as [st0 r0|c'] eqn:Hstep.
  - intros [= <- <-]. by eapply step_halt_dom.
  - intros H. etrans; [by apply step_continue_dom | by apply IH].
Qed.

(** A router answer outside the table fails the run where it stands:
    the state is the one the router was given. *)
Lemma untabled_label_fails fuel st (s : State) n resumed trace fn p s'
    router table label :
  n ≠ END → n ≠ START → may_enter g resumed n →
  nodes (graph g) !! n = Some fn →
  fn s = Ok p → merge (schema (graph g)) s p = Ok s' →
  edges (graph g) !! n = Some (Conditional router table) →
  router s' = Ok label → table !! label = None →
  loop g tid (S fuel) (mkConfig st s n resumed trace)
  = Some (<[ tid := mkCheckpoint s' n failed ]> st,
          mkRunResult s' failed (Some (RoutingError label)) (trace ++ [n])).
Proof.
  intros H1 H2 Hent Hfn Hp Hm He Hr Ht.
  apply loop_halt. eapply step_exec_unrouted; try done.
  by eapply next_untabled.
Qed.

End Invariants.

End EngineInvariants.

(** ** Routers and their tables *)

Module RoutingFacts.
Import EngineFacts EngineInvariants.

(** Finds the entry of a key in a map written as a chain of inserts. *)
Ltac edge_cases H :=
  repeat (rewrite lookup_insert in H;
          case_decide; [try discriminate H; injection H as <- <- |]);
  try (rewrite lookup_empty in H; discriminate H).

Lemma cond_tabled : tabled ConditionalGraph.app.
Proof.
  intros n router table s label He Hr.
  rewrite ConditionalGraphFacts.cond_app_edges in He. edge_cases He.
  by eapply ConditionalGraphFacts.cond_route_tabled.
Qed.

Lemma hil_tabled : tabled HumanInLoop.app.
Proof.
  intros n router table s label He Hr.
  rewrite HumanInLoopFacts.hil_app_edges in He. edge_cases He.
  by eapply HumanInLoopFacts.check_tabled.
Qed.

Lemma basic_tabled : tabled BasicGraph.app.
Proof.
  intros n router table s label He Hr.
  assert (Hedges : edges (graph BasicGraph.app)
    = <[ "validate" := Static END ]>
        (<[ "extract" := Static "validate" ]>
           (<[ "classify" := Static "extract" ]>
              (<[ START := Static "classify" ]> ∅)))) by reflexivity.
  rewrite Hedges in He. edge_cases He.
Qed.

Section WithLLM.
Variable py_format : value → string.
Variable classify_completion : string → result string.
Variable loan_data appraisal_data : value → result (gmap string value).

Let ai_app : CompiledGraph :=
  AiWorkflow.app py_format classify_completion loan_data appraisal_data.

Lemma ai_app_edges :
  edges (graph ai_app)
  = <[ "unknown" := Static END ]>
      (<[ "extract_appraisal" := Static END ]>
         (<[ "extract_loan" := Static END ]>
            (<[ "classify" :=
                  Conditional AiWorkflow.route_by_type AiWorkflow.routes ]>
               (<[ START := Static "classify" ]> ∅)))).
Proof. reflexivity. Qed.

Lemma route_by_type_tabled (s : State) label :
  AiWorkflow.route_by_type s = Ok label → is_Some (AiWorkflow.routes !! label).
Proof.
  unfold AiWorkflow.route_by_type, getitem, mbind, result_bind.
  destruct (s !! "classification") as [c|]; [|done].
  destruct (eq_str c "loan_disclosure"); [intros [= <-]; by eexists|].
  destruct (eq_str c "appraisal"); intros [= <-]; by eexists.
Qed.

Lemma ai_tabled : tabled ai_app.
Proof.
  intros n router table s label He Hr.
  rewrite ai_app_edges in He. edge_cases He.
  by eapply route_by_type_tabled.
Qed.

End WithLLM.

End RoutingFacts.

(** ** human_in_loop.py: every session *)

Module SessionFacts.
Import HumanInLoop EngineFacts HumanInLoopFacts.

Lemma gated_insert tid (st : Store) s next stat :
  next = "finalize" ∨ next = END →
  gated tid (<[ tid := mkCheckpoint s next stat ]> st).
Proof. intros Hn cp. rewrite lookup_insert_eq. by intros [= <-]. Qed.

Lemma loop_from_gate tid fuel (st : Store) (s : State) next resumed st' r :
  next = "finalize" ∨ next = END →
  loop app tid fuel (mkConfig st s next resumed []) = Some (st', r) →
  gated tid st' ∧ only_finalize (executed r).
Proof.
  intros Hnext. destruct fuel as [|fuel]; [done|]. simpl.
  destruct Hnext as [-> | ->].
  - destruct resumed.
    + destruct (step_finalize tid st s []) as (st1 & r1 & -> & Htr & -> & _).
      intros [= <- <-]. split; [|by right].
      apply gated_insert. destruct (run_status r1); auto.
    + rewrite (step_pause app tid st s "finalize" []);
        [| done | done | by rewrite hil_app_interrupt; apply list_elem_of_singleton].
      intros [= <- <-]. split; [|by left]. apply gated_insert. auto.
  - assert (Hend : step app tid (mkConfig st s END resumed [])
                   = Halt (<[ tid := mkCheckpoint s END completed ]> st)
                          (mkRunResult s completed None [])).
    { unfold step. cbn [c_next c_state c_executed]. by rewrite decide_True. }
    rewrite Hend. intros [= <- <-]. split; [|by left].
    apply gated_insert. auto.
Qed.

(** One [invoke] on a gated thread keeps it gated and enters neither
    branch node twice: it runs extract and wait_approval (a fresh thread)
    or at most finalize. *)
Lemma invoke_gated tid fuel input (st : Store) st' r :
  gated tid st →
  invoke_thread app tid fuel input st = Some (st', r) →
  gated tid st'
  ∧ (executed r = ["extract"; "wait_approval"] ∨ only_finalize (executed r)).
Proof.
  intros Hg. unfold invoke_thread.
  destruct (st !! tid) as [cp|] eqn:Hcp.
  - pose proof (Hg cp Hcp) as Hnext.
    assert (Hloop : ∀ (s : State) resumed,
              loop app tid fuel (mkConfig st s (cp_next cp) resumed [])
              = Some (st', r) →
              gated tid st' ∧ (executed r = ["extract"; "wait_approval"]
                               ∨ only_finalize (executed r))).
    { intros s resumed Hl.
      destruct (loop_from_gate _ _ _ _ _ _ _ _ Hnext Hl). auto. }
    assert (Hsame : ∀ (s : State) stat e,
              Some (st, mkRunResult s stat e []) = Some (st', r) →
              gated tid st' ∧ (executed r = ["extract"; "wait_approval"]
                               ∨ only_finalize (executed r))).
    { intros s stat e [= <- <-]. split; [done | right; by left]. }
    destruct input as [patch|].
    + destruct (merge _ _ patch) as [s|e]; [apply Hloop | apply Hsame].
    + destruct (cp_status cp); first [apply Hloop | apply Hsame].
  - assert (Hrun : ∀ s : State,
              loop app tid fuel (mkConfig st s START false []) = Some (st', r) →
              gated tid st' ∧ (executed r = ["extract"; "wait_approval"]
                               ∨ only_finalize (executed r))).
    { intros s Hloop.
      apply (loop_mono _ _ _ (4 + fuel)) in Hloop; [|lia].
      pose proof (hil_run_first s tid st fuel Hcp) as Hfirst.
      unfold invoke_thread in Hfirst. rewrite Hcp in Hfirst.
      rewrite Hfirst in Hloop. injection Hloop as <- <-.
      split; [|by left]. apply gated_insert. auto. }
    destruct input as [s|]; apply Hrun.
Qed.

Lemma update_state_gated tid partial (st st' : Store) :
  gated tid st → update_state app tid partial st = Ok st' → gated tid st'.
Proof.
  intros Hg. unfold update_state.
  destruct (st !! tid) as [cp|] eqn:Hcp; [|by intros [= <-]].
  destruct (merge _ _ partial) as [s|e]; [|done]. simpl.
  intros [= <-]. apply gated_insert. by apply Hg.
Qed.

Lemma session_gated tid fuel calls (st : Store) st' trace :
  gated tid st →
  session fuel app tid calls st = Some (st', trace) →
  "auto_approve" ∉ trace.
Proof.
  revert st trace. induction calls as [|[input|partial] calls IH];
    intros st trace Hg; simpl.
  - intros [= <- <-]. apply not_elem_of_nil.
  - destruct (invoke_thread app tid fuel input st) as [[st1 r]|] eqn:Hinv;
      [|done]. simpl.
    destruct (session fuel app tid calls st1) as [[st2 tr]|] eqn:Hrest;
      [|done]. simpl.
    intros [= <- <-].
    destruct (invoke_gated _ _ _ _ _ _ Hg Hinv) as [Hg1 Hex].
    intros [Hin | Hin]%elem_of_app.
    + destruct Hex as [Hex | [Hex | Hex]]; rewrite Hex in Hin;
        by repeat (apply elem_of_cons in Hin as [Hin | Hin]; [done|]);
           apply elem_of_nil in Hin.
    + by eapply IH.
  - destruct (update_state app tid partial st) as [st1|e] eqn:Hup.
    + by apply IH, (update_state_gated tid partial st).
    + by apply IH.
Qed.

End SessionFacts.

(** * The workflows' properties *)

Import EngineFacts EngineInvariants.

(** C10.  For every document whose lower-cased text contains both "loan"
    and "appraisal", [classify_document] (in basic_graph and in
    conditional_graph) returns the classification "loan_disclosure": the
    "loan" test comes first.  It returns "appraisal" exactly when the
    lower-cased text contains "appraisal" and does not contain "loan". *)
Theorem classify_loan_precedence (s : State) (d : string) :
  s !! "document" = Some (VStr d) →
  let doc := PyStr.lower d in
  (PyStr.contains "loan" doc = true → PyStr.contains "appraisal" doc = true →
   BasicGraph.classify_document s
   = Ok {[ "classification" := VStr "loan_disclosure" ]}
   ∧ ConditionalGraph.classify_document s
     = Ok {[ "classification" := VStr "loan_disclosure" ]})
  ∧ (BasicGraph.classify_document s = Ok {[ "classification" := VStr "appraisal" ]}
     ↔ PyStr.contains "appraisal" doc = true ∧ PyStr.contains "loan" doc = false)
  ∧ (ConditionalGraph.classify_document s
     = Ok {[ "classification" := VStr "appraisal" ]}
     ↔ PyStr.contains "appraisal" doc = true ∧ PyStr.contains "loan" doc = false).
Proof.
  intros Hdoc doc.
  rewrite (BasicGraphFacts.basic_classify_document_str s d Hdoc).
  rewrite (ConditionalGraphFacts.cond_classify_document_str s d Hdoc).
  fold doc. unfold BasicGraph.label_of.
  assert (Hinj : ∀ a b : string,
            (Ok ({[ "classification" := VStr a ]} : Partial)
             = Ok {[ "classification" := VStr b ]}) ↔ a = b).
  { intros a b. split; [|by intros ->].
    intros H.
    apply (f_equal (λ r : result Partial,
                      match r with
                      | Ok m => m !! "classification"
                      | Err _ => None
                      end)) in H.
    rewrite !lookup_singleton_eq in H. by injection H. }
  split; [|rewrite !Hinj].
  - by intros -> _.
  - destruct (PyStr.contains "loan" doc), (PyStr.contains "appraisal" doc);
      split; split; (by intros [? ?]) || done.
Qed.

Lemma classify_loan_precedence_witness :
  let s : State := {[ "document" := VStr "Appraisal for the LOAN" ]} in
  BasicGraph.classify_document s = Ok {[ "classification" := VStr "loan_disclosure" ]}
  ∧ ConditionalGraph.classify_document s
    = Ok {[ "classification" := VStr "loan_disclosure" ]}.
Proof.
  intros s.
  apply (classify_loan_precedence s "Appraisal for the LOAN");
    reflexivity.
Defined.

(** C5.  Merging a partial update changes exactly the keys of the partial:
    a key outside it keeps its value, a key inside it takes the partial's.
    In particular the update of [classify_document], which has only the key
    "classification", is accepted and leaves document, extracted_data and
    is_valid of the running state as they were. *)
Theorem merge_locality :
  (∀ sch (s : State) (p : Partial) s' k,
     merge sch s p = Ok s' →
     (p !! k = None → s' !! k = s !! k)
     ∧ (∀ v, p !! k = Some v → s' !! k = Some v))
  ∧ (∀ (s : State) (p : Partial),
       BasicGraph.classify_document s = Ok p →
       ∃ s', merge (schema (graph BasicGraph.app)) s p = Ok s'
             ∧ s' !! "document" = s !! "document"
             ∧ s' !! "extracted_data" = s !! "extracted_data"
             ∧ s' !! "is_valid" = s !! "is_valid").
Proof.
  split.
  - intros sch s p s' k Hm. split.
    + by apply (merge_frame sch s p).
    + intros v. by apply (merge_written sch s p).
  - intros s p. unfold BasicGraph.classify_document, getitem, mbind, result_bind.
    destruct (s !! "document") as [v|] eqn:Hdoc; [|done].
    destruct (py_lower v) as [doc|]; [|done]. intros [= <-].
    eexists. split; [apply BasicGraphFacts.basic_merge_field; in_fields|].
    split_and!; by rewrite lookup_insert_ne.
Qed.

Lemma merge_locality_witness :
  ∃ s', merge (schema (graph BasicGraph.app)) BasicGraph.initial_state
          {[ "classification" := VStr "loan_disclosure" ]} = Ok s'
        ∧ s' !! "document" = BasicGraph.initial_state !! "document"
        ∧ s' !! "extracted_data" = BasicGraph.initial_state !! "extracted_data"
        ∧ s' !! "is_valid" = BasicGraph.initial_state !! "is_valid".
Proof.
  destruct merge_locality as [_ H].
  apply (H BasicGraph.initial_state). reflexivity.
Defined.

(** C3.  The linear graph of basic_graph (classify, extract, validate, END),
    started on a state whose document contains "LOAN", with classification
    "", extracted_data {} and is_valid False, terminates and returns a state
    with classification "loan_disclosure" and is_valid True. *)
Theorem basic_linear_loan (d : string) (fuel : nat) :
  PyStr.contains "LOAN" d = true →
  ∃ r,
    invoke (4 + fuel) BasicGraph.app
      {[ "document" := VStr d; "classification" := VStr "";
         "extracted_data" := VDict ∅; "is_valid" := VBool false ]}
    = Some r
    ∧ run_status r = completed ∧ raised r = None
    ∧ executed r = ["classify"; "extract"; "validate"]
    ∧ state r !! "classification" = Some (VStr "loan_disclosure")
    ∧ state r !! "is_valid" = Some (VBool true).
Proof.
  intros Hloan.
  edestruct (BasicGraphFacts.basic_run_loan
               {[ "document" := VStr d; "classification" := VStr "";
                  "extracted_data" := VDict ∅; "is_valid" := VBool false ]}
               d fuel) as [ex Hrun]; [apply lookup_insert_eq | done |].
  eexists. split; [exact Hrun|].
  cbn [state run_status raised executed]. by split_and!.
Qed.

Lemma basic_linear_loan_witness :
  ∃ r, invoke 4 BasicGraph.app BasicGraph.initial_state = Some r
       ∧ run_status r = completed ∧ raised r = None
       ∧ executed r = ["classify"; "extract"; "validate"]
       ∧ state r !! "classification" = Some (VStr "loan_disclosure")
       ∧ state r !! "is_valid" = Some (VBool true).
Proof.
  apply (basic_linear_loan "This is a LOAN disclosure document for $500,000" 0).
  reflexivity.
Defined.

(** C8.  In conditional_graph, when the lower-cased document contains
    neither "loan" nor "appraisal", classify_document yields "unknown", the
    router answers "handle_unknown", the run ends with a non-empty
    error_message, the extract node is never entered and extracted_data is in
    the final state what it was in the input. *)
Theorem conditional_unknown_path (s : State) (d : string) (fuel : nat) :
  s !! "document" = Some (VStr d) →
  PyStr.contains "loan" (PyStr.lower d) = false →
  PyStr.contains "appraisal" (PyStr.lower d) = false →
  ConditionalGraph.classify_document s = Ok {[ "classification" := VStr "unknown" ]}
  ∧ ConditionalGraph.route_by_classification
      (<[ "classification" := VStr "unknown" ]> s) = Ok "handle_unknown"
  ∧ ∃ r msg,
      invoke (3 + fuel) ConditionalGraph.app s = Some r
      ∧ run_status r = completed ∧ raised r = None
      ∧ ("extract" ∉ executed r)
      ∧ state r !! "error_message" = Some (VStr msg) ∧ msg ≠ ""
      ∧ state r !! "extracted_data" = s !! "extracted_data".
Proof.
  intros Hdoc Hloan Happ.
  assert (Hlab : BasicGraph.label_of (PyStr.lower d) = "unknown").
  { unfold BasicGraph.label_of. by rewrite Hloan, Happ. }
  split_and!.
  - rewrite (ConditionalGraphFacts.cond_classify_document_str s d Hdoc).
    by rewrite Hlab.
  - apply ConditionalGraphFacts.cond_route_unknown, lookup_insert_eq.
  - eexists _, "Document type not recognized. Please review mannually.".
    split; [by apply (ConditionalGraphFacts.cond_run_unknown s d)|].
    cbn [state run_status raised executed].
    split; [done|]. split; [done|]. split; [|split; [|split]].
    + intros Hin.
      by repeat (apply elem_of_cons in Hin as [Hin | Hin]; [done|]);
         apply elem_of_nil in Hin.
    + apply lookup_insert_eq.
    + done.
    + by rewrite !lookup_insert_ne.
Qed.

Lemma conditional_unknown_path_witness :
  ∃ r msg,
    invoke 3 ConditionalGraph.app ConditionalGraph.test2_input = Some r
    ∧ run_status r = completed ∧ raised r = None
    ∧ ("extract" ∉ executed r)
    ∧ state r !! "error_message" = Some (VStr msg) ∧ msg ≠ ""
    ∧ state r !! "extracted_data" = ConditionalGraph.test2_input !! "extracted_data".
Proof.
  apply (conditional_unknown_path ConditionalGraph.test2_input
           "Random document about something else" 0); reflexivity.
Defined.

(** C1.  In human_in_loop, compiled with [interrupt_before=["finalize"]],
    the first [invoke] on a thread identifier that has no checkpoint never
    enters finalize: the run pauses before it, the status handed back is
    paused and the pending node of the thread is finalize.  finalize is
    entered by the second invocation on the same thread identifier. *)
Theorem interrupt_before_finalize (s : State) (tid : string) (st : Store)
    (fuel : nat) :
  st !! tid = None →
  ∃ st1 r1,
    invoke_thread HumanInLoop.app tid (4 + fuel) (Some s) st = Some (st1, r1)
    ∧ ("finalize" ∉ executed r1)
    ∧ run_status r1 = paused ∧ raised r1 = None
    ∧ st1 !! tid = Some (mkCheckpoint (state r1) "finalize" paused)
    ∧ ∃ st2 r2,
        invoke_thread HumanInLoop.app tid (1 + fuel) None st1 = Some (st2, r2)
        ∧ executed r2 = ["finalize"].
Proof.
  intros Hfresh. eexists _, _.
  split; [by apply HumanInLoopFacts.hil_run_first|].
  cbn [state run_status raised executed].
  split; [|split; [done|split; [done|split]]].
  - intros Hin.
    by repeat (apply elem_of_cons in Hin as [Hin | Hin]; [done|]);
       apply elem_of_nil in Hin.
  - apply lookup_insert_eq.
  - unfold invoke_thread. rewrite lookup_insert_eq.
    cbn [cp_status cp_state cp_next].
    change (1 + fuel) with (S fuel).
    destruct (HumanInLoopFacts.step_finalize tid
                (<[ tid := mkCheckpoint (HumanInLoop.waiting s)
                             "finalize" paused ]> st)
                (HumanInLoop.waiting s) [])
      as (st2 & r2 & Hstep & Htr & _).
    exists st2, r2. split; [|exact Htr].
    by apply loop_halt.
Qed.

Lemma interrupt_before_finalize_witness :
  ∃ st1 r1,
    invoke_thread HumanInLoop.app HumanInLoop.thread_id 4
      (Some HumanInLoop.initial_state) ∅ = Some (st1, r1)
    ∧ ("finalize" ∉ executed r1)
    ∧ run_status r1 = paused ∧ raised r1 = None
    ∧ st1 !! HumanInLoop.thread_id
      = Some (mkCheckpoint (state r1) "finalize" paused)
    ∧ ∃ st2 r2,
        invoke_thread HumanInLoop.app HumanInLoop.thread_id 1 None st1
        = Some (st2, r2)
        ∧ executed r2 = ["finalize"].
Proof.
  apply (interrupt_before_finalize HumanInLoop.initial_state
           HumanInLoop.thread_id ∅ 0).
  reflexivity.
Defined.

(** C2.  On a run of human_in_loop paused before finalize, patching the
    stored state with [{"approved": True}] through [update_state] and then
    resuming with [invoke(None)] on the same thread identifier completes
    the run: finalize sees the patched field, the final state has approved
    True and status "complete". *)
Theorem patch_then_resume (s : State) (tid : string) (st : Store)
    (fuel fuel' : nat) :
  st !! tid = None →
  ∃ st1 r1 st2 st3 r,
    invoke_thread HumanInLoop.app tid (4 + fuel) (Some s) st = Some (st1, r1)
    ∧ run_status r1 = paused
    ∧ update_state HumanInLoop.app tid {[ "approved" := VBool true ]} st1 = Ok st2
    ∧ invoke_thread HumanInLoop.app tid (1 + fuel') None st2 = Some (st3, r)
    ∧ run_status r = completed ∧ raised r = None
    ∧ executed r = ["finalize"]
    ∧ state r !! "approved" = Some (VBool true)
    ∧ state r !! "status" = Some (VStr "complete")
    ∧ st3 !! tid = Some (mkCheckpoint (state r) END completed).
Proof.
  intros Hfresh. eexists _, _, _, _, _.
  split; [by apply HumanInLoopFacts.hil_run_first|].
  split; [done|]. split.
  { apply HumanInLoopFacts.hil_update_field; [apply lookup_insert_eq|].
    in_fields. }
  cbn [cp_state cp_next cp_status]. split.
  { unfold invoke_thread. rewrite lookup_insert_eq.
    cbn [cp_status cp_state cp_next]. change (1 + fuel') with (S fuel').
    apply loop_halt.
    eapply step_exec_end;
      [done | done | by left | by rewrite HumanInLoopFacts.hil_app_nodes
      | apply (HumanInLoopFacts.finalize_val _ (VBool true)), lookup_insert_eq
      | apply HumanInLoopFacts.hil_merge_field; in_fields
      | apply next_static; by rewrite HumanInLoopFacts.hil_app_edges ]. }
  cbn [state run_status raised executed truthy].
  split_and!; try done.
  - by rewrite lookup_insert_ne, lookup_insert_eq.
  - apply lookup_insert_eq.
  - apply lookup_insert_eq.
Qed.

Lemma patch_then_resume_witness :
  ∃ st1 r1 st2 st3 r,
    invoke_thread HumanInLoop.app HumanInLoop.thread_id 4
      (Some HumanInLoop.initial_state) ∅ = Some (st1, r1)
    ∧ run_status r1 = paused
    ∧ update_state HumanInLoop.app HumanInLoop.thread_id
        {[ "approved" := VBool true ]} st1 = Ok st2
    ∧ invoke_thread HumanInLoop.app HumanInLoop.thread_id 1 None st2
      = Some (st3, r)
    ∧ run_status r = completed ∧ raised r = None
    ∧ executed r = ["finalize"]
    ∧ state r !! "approved" = Some (VBool true)
    ∧ state r !! "status" = Some (VStr "complete")
    ∧ st3 !! HumanInLoop.thread_id = Some (mkCheckpoint (state r) END completed).
Proof.
  apply (patch_then_resume HumanInLoop.initial_state HumanInLoop.thread_id ∅ 0 0).
  reflexivity.
Defined.

(** C9.  No run of human_in_loop enters auto_approve: [extract_amount]
    returns extracted_amount 500000.0 and requires_approval True whatever
    the state, so [check_approval_needed] answers "wait_approval" on the
    state that follows, and in every session on a thread that starts without
    a checkpoint (any inputs, any patches, any resumes) the node auto_approve
    is never entered. *)
Theorem auto_approve_unreachable :
  (∀ s : State,
     HumanInLoop.extract_amount s
     = Ok {[ "extracted_amount" := VFloat 500000%float;
             "requires_approval" := VBool true ]})
  ∧ (∀ (s s' : State) (p : Partial),
       HumanInLoop.extract_amount s = Ok p →
       merge (schema (graph HumanInLoop.app)) s p = Ok s' →
       HumanInLoop.check_approval_needed s' = Ok "wait_approval")
  ∧ (∀ fuel tid calls (st st' : Store) trace,
       st !! tid = None →
       session fuel HumanInLoop.app tid calls st = Some (st', trace) →
       "auto_approve" ∉ trace).
Proof.
  split_and!.
  - intros s. reflexivity.
  - intros s s' p.
    rewrite HumanInLoopFacts.extract_amount_val. intros [= <-].
    rewrite HumanInLoopFacts.hil_merge_extracted. intros [= <-].
    apply HumanInLoopFacts.check_after_extract.
  - intros fuel tid calls st st' trace Hfresh.
    apply SessionFacts.session_gated. intros cp Hcp. congruence.
Qed.

Lemma auto_approve_unreachable_witness :
  match session 10 HumanInLoop.app HumanInLoop.thread_id
          [Invoke (Some HumanInLoop.initial_state);
           UpdateState {[ "approved" := VBool true ]};
           Invoke None] ∅
  with
  | Some (_, trace) =>
      trace = ["extract"; "wait_approval"; "finalize"]
      ∧ ("auto_approve" ∉ trace)
  | None => False
  end.
Proof.
  destruct (session 10 HumanInLoop.app HumanInLoop.thread_id
              [Invoke (Some HumanInLoop.initial_state);
               UpdateState {[ "approved" := VBool true ]};
               Invoke None] ∅) as [[st' trace]|] eqn:Hrun.
  - split.
    + vm_compute in Hrun. by injection Hrun as _ <-.
    + destruct auto_approve_unreachable as (_ & _ & H).
      apply (H _ _ _ _ _ _ (lookup_empty _) Hrun).
  - vm_compute in Hrun. discriminate Hrun.
Defined.

(** C4.  The label that each router of the scripts returns is a key of the
    routing table of its conditional edge, for every state on which the
    router returns; hence no run of these graphs fails with a
    [RoutingError].  Were a router to return a label that its table does not
    have, the run would end there with status failed and a [RoutingError],
    the state being the one the router was given. *)
Theorem routing_totality :
  (∀ (s : State) label,
     ConditionalGraph.route_by_classification s = Ok label →
     is_Some (ConditionalGraph.routes !! label))
  ∧ (∀ (s : State) label,
       HumanInLoop.check_approval_needed s = Ok label →
       is_Some (HumanInLoop.routes !! label))
  ∧ (∀ (s : State) label,
       AiWorkflow.route_by_type s = Ok label →
       is_Some (AiWorkflow.routes !! label))
  ∧ (∀ py_format classify_completion loan_data appraisal_data g,
       g = ConditionalGraph.app ∨ g = HumanInLoop.app
       ∨ g = AiWorkflow.app py_format classify_completion loan_data
               appraisal_data →
       ∀ tid fuel input (st st' : Store) r,
         invoke_thread g tid fuel input st = Some (st', r) →
         ∀ label, raised r ≠ Some (RoutingError label))
  ∧ (∀ g tid fuel (st : Store) (s s' : State) n resumed trace fn p
       router table label,
       n ≠ END → n ≠ START → may_enter g resumed n →
       nodes (graph g) !! n = Some fn →
       fn s = Ok p → merge (schema (graph g)) s p = Ok s' →
       edges (graph g) !! n = Some (Conditional router table) →
       router s' = Ok label → table !! label = None →
       ∃ st' r,
         loop g tid (S fuel) (mkConfig st s n resumed trace) = Some (st', r)
         ∧ run_status r = failed
         ∧ raised r = Some (RoutingError label)
         ∧ state r = s'
         ∧ st' !! tid = Some (mkCheckpoint s' n failed)).
Proof.
  split_and!.
  - apply ConditionalGraphFacts.cond_route_tabled.
  - apply HumanInLoopFacts.check_tabled.
  - apply RoutingFacts.route_by_type_tabled.
  - intros py_format classify_completion loan_data appraisal_data g Hg
      tid fuel input st st' r Hrun label Hraised.
    assert (Htab : tabled g).
    { destruct Hg as [-> | [-> | ->]].
      - apply RoutingFacts.cond_tabled.
      - apply RoutingFacts.hil_tabled.
      - apply RoutingFacts.ai_tabled. }
    eapply invoke_no_routing_error; [exact Htab | exact Hrun |].
    by exists label.
  - intros g tid fuel st s s' n resumed trace fn p router table label
      H1 H2 Hent Hfn Hp Hm He Hr Ht.
    eexists _, _. split; [by eapply untabled_label_fails|].
    cbn [state run_status raised]. split_and!; try done.
    apply lookup_insert_eq.
Qed.

Lemma routing_totality_witness :
  ∃ st' r,
    loop Misrouted.app "t" 1
      (mkConfig ∅ ConditionalGraph.test1_input "classify" false [])
    = Some (st', r)
    ∧ run_status r = failed
    ∧ raised r = Some (RoutingError "review")
    ∧ state r
      = <[ "classification" := VStr "loan_disclosure" ]>
          ConditionalGraph.test1_input
    ∧ st' !! "t"
      = Some (mkCheckpoint
                (<[ "classification" := VStr "loan_disclosure" ]>
                   ConditionalGraph.test1_input) "classify" failed).
Proof.
  destruct routing_totality as (_ & _ & _ & _ & H).
  apply (H Misrouted.app "t" 0 ∅ ConditionalGraph.test1_input
           (<[ "classification" := VStr "loan_disclosure" ]>
              ConditionalGraph.test1_input)
           "classify" false [] ConditionalGraph.classify_document
           {[ "classification" := VStr "loan_disclosure" ]}
           Misrouted.route_to_review ConditionalGraph.routes "review").
  - discriminate.
  - discriminate.
  - right. apply not_elem_of_nil.
  - reflexivity.
  - reflexivity.
  - vm_compute. reflexivity.
  - reflexivity.
  - reflexivity.
  - reflexivity.
Defined.

(** C6, as stated, fails on conditional_graph's "Test 2": its input has the
    key "extrated_data", which the schema does not declare, and no amount of
    fuel makes the invocation end in an [UnknownFieldError]. *)
Lemma undeclared_input_not_rejected :
  is_Some (ConditionalGraph.test2_input !! "extrated_data")
  ∧ ("extrated_data" ∉ schema (graph ConditionalGraph.app))
  ∧ ¬ ∃ fuel r,
        invoke fuel ConditionalGraph.app ConditionalGraph.test2_input = Some r
        ∧ raised r = Some UnknownFieldError.
Proof.
  split_and!.
  - by eexists.
  - in_fields.
  - intros (fuel & r & Hrun & Hraised).
    apply (invoke_mono _ (3 + fuel)) in Hrun; [|lia].
    rewrite (ConditionalGraphFacts.cond_run_unknown _
               "Random document about something else") in Hrun
      by reflexivity.
    injection Hrun as <-. discriminate Hraised.
Qed.

(** C6, amended.  [merge] fails with [UnknownFieldError] on every partial
    update that has a key outside the schema, whatever the state.  Invoking
    conditional_graph with the "Test 2" input, which has the undeclared key
    "extrated_data", is not rejected: the run completes without an error. *)
Theorem undeclared_field_rejected_by_merge :
  (∀ sch (s : State) (p : Partial) k,
     is_Some (p !! k) → k ∉ sch → merge sch s p = Err UnknownFieldError)
  ∧ (∀ fuel, ∃ r,
       invoke (3 + fuel) ConditionalGraph.app ConditionalGraph.test2_input
       = Some r
       ∧ run_status r = completed ∧ raised r = None).
Proof.
  split.
  - intros sch s p k Hk Hsch. apply merge_err. intros Hsub.
    apply Hsch, Hsub. by apply elem_of_dom.
  - intros fuel. eexists. split.
    + by apply (ConditionalGraphFacts.cond_run_unknown _
                  "Random document about something else").
    + done.
Qed.

Lemma undeclared_field_rejected_by_merge_witness :
  merge (schema (graph ConditionalGraph.app)) ConditionalGraph.test1_input
    {[ "extrated_data" := VDict ∅ ]}
  = Err UnknownFieldError.
Proof.
  destruct undeclared_field_rejected_by_merge as (H & _).
  apply (H _ _ _ "extrated_data").
  - by eexists.
  - in_fields.
Defined.

(** C7, as stated, fails: the "Test 2" run of conditional_graph ends in a
    state without the declared field extracted_data, and a run of basic_graph
    on an input without document stops on the missing key. *)
Lemma declared_field_missing :
  "extracted_data" ∈ schema (graph ConditionalGraph.app)
  ∧ (∃ r, invoke 3 ConditionalGraph.app ConditionalGraph.test2_input = Some r
          ∧ run_status r = completed
          ∧ state r !! "extracted_data" = None)
  ∧ (∃ r, invoke 2 BasicGraph.app {[ "classification" := VStr "loan" ]} = Some r
          ∧ run_status r = failed
          ∧ raised r = Some (NodeExecutionError (KeyError "document"))).
Proof.
  split_and!.
  - in_fields.
  - eexists. split; [vm_compute; reflexivity|]. split; reflexivity.
  - eexists. split; [vm_compute; reflexivity|]. split; reflexivity.
Qed.

Module StepFields.

Lemma advance_state g tid c n (s : State) trace :
  outcome_state (advance g tid c n s trace) = s.
Proof.
  unfold advance, halt. destruct (next_transition g n s); [|done].
  by case_decide.
Qed.

(** After a turn the state is the state before, overwritten by the update
    of the turn. *)
Lemma step_state g tid c :
  outcome_state (step g tid c) = step_update g c ∪ c_state c.
Proof.
  unfold step, step_update. cbv zeta.
  destruct (decide (c_next c = END)) as [_|_];
    [by rewrite (left_id_L ∅ (∪))|].
  destruct (decide (c_next c = START)) as [_|_].
  { by rewrite advance_state, (left_id_L ∅ (∪)). }
  destruct (negb _ && _); [by rewrite (left_id_L ∅ (∪))|].
  destruct (nodes (graph g) !! c_next c) as [fn|];
    [|by rewrite (left_id_L ∅ (∪))].
  destruct (fn (c_state c)) as [p|e]; [|by rewrite (left_id_L ∅ (∪))].
  destruct (merge _ _ p) as [s'|e] eqn:Hm; [|by rewrite (left_id_L ∅ (∪))].
  rewrite advance_state. by apply merge_inv in Hm as [_ ->].
Qed.

End StepFields.

(** C7, amended.  The state is not always fully formed, but no declared
    field is lost.  At every step of every run, a field declared in the
    schema is present in the running state after the step exactly when it
    was present before the step or is a field of the partial update that the
    step merged (the update of the node that ran); and every declared field
    of the initial input is present in the state that [invoke] returns.  In
    particular, after invoking conditional_graph with an input that omits
    extracted_data and whose document is a string, the run completes and no
    node or router finds a key missing (classification is present);
    extracted_data is absent from the final state when the run went through
    handle_unknown and present when it went through extract. *)
Theorem state_fields_persist :
  (∀ g tid c k,
     k ∈ schema (graph g) →
     is_Some (outcome_state (step g tid c) !! k)
     ↔ is_Some (c_state c !! k) ∨ is_Some (step_update g c !! k))
  ∧ (∀ g fuel (s : State) r k,
       invoke fuel g s = Some r →
       k ∈ schema (graph g) → is_Some (s !! k) → is_Some (state r !! k))
  ∧ (∀ (s : State) d fuel,
       s !! "document" = Some (VStr d) →
       s !! "extracted_data" = None →
       ∃ r, invoke (3 + fuel) ConditionalGraph.app s = Some r
            ∧ run_status r = completed ∧ raised r = None
            ∧ is_Some (state r !! "classification")
            ∧ (executed r = ["classify"; "handle_unknown"]
               ∧ state r !! "extracted_data" = None
               ∨ executed r = ["classify"; "extract"]
                 ∧ is_Some (state r !! "extracted_data"))).
Proof.
  split_and!.
  - intros g tid c k _. rewrite StepFields.step_state.
    rewrite lookup_union_is_Some. tauto.
  - intros g fuel s r k Hrun _ Hk.
    unfold invoke, invoke_thread in Hrun. rewrite lookup_empty in Hrun.
    destruct (loop g EmptyString fuel _) as [[st' r']|] eqn:Hloop; [|done].
    injection Hrun as <-. apply loop_dom in Hloop.
    apply elem_of_dom, Hloop, elem_of_dom, Hk.
  - intros s d fuel Hdoc Hex.
    destruct (decide (BasicGraph.label_of (PyStr.lower d) = "unknown"))
      as [Hlab | Hlab].
    + eexists. split; [by apply (ConditionalGraphFacts.cond_run_unknown s d)|].
      cbn [state run_status raised executed].
      split; [done|]. split; [done|]. split.
      { rewrite lookup_insert_ne, lookup_insert_eq by done. by eexists. }
      left. split; [done|]. by do 2 (rewrite lookup_insert_ne by done).
    + eexists. split; [by apply (ConditionalGraphFacts.cond_run_known s d)|].
      cbn [state run_status raised executed].
      split; [done|]. split; [done|]. split.
      { rewrite lookup_insert_ne, lookup_insert_eq by done. by eexists. }
      right. split; [done|]. rewrite lookup_insert_eq. by eexists.
Qed.

Lemma state_fields_persist_witness :
  ∃ r, invoke 3 ConditionalGraph.app ConditionalGraph.test2_input = Some r
       ∧ run_status r = completed ∧ raised r = None
       ∧ is_Some (state r !! "classification")
       ∧ (executed r = ["classify"; "handle_unknown"]
          ∧ state r !! "extracted_data" = None
          ∨ executed r = ["classify"; "extract"]
            ∧ is_Some (state r !! "extracted_data")).
Proof.
  destruct state_fields_persist as (_ & _ & H).
  apply (H ConditionalGraph.test2_input
           "Random document about something else" 0); reflexivity.
Defined.

(** * Further properties of the scripts *)

(** ** Strings: case folding and stripping *)

Module PyStrMore.
Import PyStr.

Lemma lower_char_idem c : lower_char (lower_char c) = lower_char c.
Proof. by destruct c as [[] [] [] [] [] [] [] []]. Qed.

Lemma lower_idem s : lower (lower s) = lower s.
Proof.
  induction s as [|c s IH]; simpl; [done|]. by rewrite lower_char_idem, IH.
Qed.

Lemma lstrip_blank a : blank a = true → lstrip a = EmptyString.
Proof.
  induction a as [|c a IH]; simpl; [done|].
  intros [Hc Ha]%andb_true_iff. rewrite Hc. by apply IH.
Qed.

Lemma rstrip_blank b : blank b = true → rstrip b = EmptyString.
Proof.
  induction b as [|c b IH]; simpl; [done|].
  intros [Hc Hb]%andb_true_iff. by rewrite (IH Hb), Hc.
Qed.

Lemma lstrip_append_blank a s :
  blank a = true → lstrip (String.append a s) = lstrip s.
Proof.
  induction a as [|c a IH]; simpl; [done|].
  intros [Hc Ha]%andb_true_iff. rewrite Hc. by apply IH.
Qed.

Lemma rstrip_append_blank s b :
  blank b = true → rstrip (String.append s b) = rstrip s.
Proof.
  intros Hb. induction s as [|c s IH]; simpl.
  - by apply rstrip_blank.
  - by rewrite IH.
Qed.

Lemma lstrip_append s b :
  lstrip (String.append s b)
  = if blank s then lstrip b else String.append (lstrip s) b.
Proof.
  induction s as [|c s IH]; simpl; [done|].
  destruct (is_space c); simpl; [exact IH | done].
Qed.

(** White space around a text does not survive [strip]. *)
Lemma strip_padding a s b :
  blank a = true → blank b = true →
  strip (String.append a (String.append s b)) = strip s.
Proof.
  intros Ha Hb. unfold strip.
  rewrite (lstrip_append_blank a _ Ha), lstrip_append.
  destruct (blank s) eqn:Hs.
  - by rewrite (lstrip_blank b Hb), (lstrip_blank s Hs).
  - by apply rstrip_append_blank.
Qed.

End PyStrMore.

Lemma str_append_assoc (a b c : string) :
  String.append (String.append a b) c = String.append a (String.append b c).
Proof.
  induction a as [|x a IH]; [done|].
  change (String x (String.append (String.append a b) c)
          = String x (String.append a (String.append b c))).
  by rewrite IH.
Qed.

(** ** basic_graph.py: every input *)

Module BasicRuns.
Import BasicGraph BasicGraphFacts.

Lemma classify_document_missing (s : State) :
  s !! "document" = None → classify_document s = Err (KeyError "document").
Proof. intros H. unfold classify_document. by eval_reads. Qed.

Lemma classify_document_not_str (s : State) v :
  s !! "document" = Some v → (∀ d, v ≠ VStr d) →
  classify_document s = Err (AttributeError "lower").
Proof.
  intros H Hv. unfold classify_document. eval_reads.
  destruct v; try done. by destruct (Hv s0).
Qed.

Lemma validate_data_val (s : State) c e :
  s !! "classification" = Some c → s !! "extracted_data" = Some (VDict e) →
  validate_data s
  = Ok {[ "is_valid" :=
            if eq_str c "unknown" then VBool false
            else default (VBool false) (e !! "has_content") ]}.
Proof.
  intros H1 H2. unfold validate_data. eval_reads.
  destruct (eq_str c "unknown"); by eval_reads.
Qed.

(** A label other than "unknown" needs a non-empty text. *)
Lemma label_known_nonempty d :
  label_of (PyStr.lower d) ≠ "unknown" → (0 < String.length d)%nat.
Proof.
  intros H. destruct d as [|c d]; simpl; [|lia]. by destruct H.
Qed.

(** The run on an input whose document is a string. *)
Lemma basic_run_any_str (s : State) d fuel :
  s !! "document" = Some (VStr d) →
  let label := label_of (PyStr.lower d) in
  let content := bool_decide (0 < String.length d)%nat in
  invoke (4 + fuel) app s
  = Some (mkRunResult
            (<[ "is_valid" := VBool (bool_decide (label ≠ "unknown")) ]>
               (<[ "extracted_data" :=
                     VDict {[ "type" := VStr label;
                              "has_content" := VBool content ]} ]>
                  (<[ "classification" := VStr label ]> s)))
            completed None ["classify"; "extract"; "validate"]).
Proof.
  intros Hdoc label content.
  destruct basic_app_nodes as (Hn1 & Hn2 & Hn3).
  destruct basic_app_edges as (He0 & He1 & He2 & He3).
  unfold invoke, invoke_thread. rewrite lookup_empty.
  change (4 + fuel) with (S (S (S (S fuel)))).
  erewrite loop_continue
    by (apply step_start; [by apply next_static | done]).
  erewrite loop_continue.
  2:{ eapply step_exec;
      [done | done | apply basic_app_may_enter | exact Hn1
      | by apply basic_classify_document_str
      | apply basic_merge_field; in_fields
      | by apply next_static | done]. }
  erewrite loop_continue.
  2:{ eapply step_exec;
      [done | done | apply basic_app_may_enter | exact Hn2
      | apply (basic_extract_data_str _ (VStr label) d);
        [apply lookup_insert_eq | by rewrite lookup_insert_ne]
      | apply basic_merge_field; in_fields
      | by apply next_static | done]. }
  erewrite loop_halt.
  2:{ eapply step_exec_end;
      [done | done | apply basic_app_may_enter | exact Hn3
      | apply (validate_data_val _ (VStr label));
        [ by rewrite lookup_insert_ne, lookup_insert_eq
        | apply lookup_insert_eq ]
      | apply basic_merge_field; in_fields
      | by apply next_static ]. }
  cbn [fmap option_fmap option_map snd]. do 3 f_equal.
  fold label content. unfold eq_str.
  rewrite lookup_insert_ne, lookup_singleton_eq by done. cbn [default].
  destruct (decide (label = "unknown")) as [Hl | Hl].
  - by rewrite bool_decide_true, bool_decide_false by auto.
  - rewrite bool_decide_false, bool_decide_true by done.
    unfold content. by rewrite bool_decide_true by by apply label_known_nonempty.
Qed.

(** The run on an input on which [classify_document] raises. *)
Lemma basic_run_classify_raises (s : State) e fuel :
  classify_document s = Err e →
  invoke (2 + fuel) app s
  = Some (mkRunResult s failed (Some (NodeExecutionError e)) ["classify"]).
Proof.
  intros Herr.
  destruct basic_app_nodes as (Hn1 & _).
  destruct basic_app_edges as (He0 & _).
  unfold invoke, invoke_thread. rewrite lookup_empty.
  change (2 + fuel) with (S (S fuel)).
  erewrite loop_continue
    by (apply step_start; [by apply next_static | done]).
  erewrite loop_halt.
  2:{ eapply step_exec_raise;
      [done | done | apply basic_app_may_enter | exact Hn1 | exact Herr]. }
  done.
Qed.

End BasicRuns.

(** X1.  On every input whose document is a string, basic_graph runs
    classify, extract and validate and completes.  The final classification
    is the label of the lower-cased text, extracted_data records that label
    and whether the text is non-empty, and is_valid is True exactly when the
    label is not "unknown": the has_content test never decides, because a
    text that contains "loan" or "appraisal" is not empty.  The document is
    left as it was. *)
Theorem basic_graph_on_strings (s : State) (d : string) (fuel : nat) :
  s !! "document" = Some (VStr d) →
  ∃ r,
    invoke (4 + fuel) BasicGraph.app s = Some r
    ∧ run_status r = completed ∧ raised r = None
    ∧ executed r = ["classify"; "extract"; "validate"]
    ∧ state r !! "document" = Some (VStr d)
    ∧ state r !! "classification"
      = Some (VStr (BasicGraph.label_of (PyStr.lower d)))
    ∧ state r !! "extracted_data"
      = Some (VDict {[ "type" := VStr (BasicGraph.label_of (PyStr.lower d));
                       "has_content" :=
                         VBool (bool_decide (0 < String.length d)%nat) ]})
    ∧ state r !! "is_valid"
      = Some (VBool (bool_decide
                       (PyStr.contains "loan" (PyStr.lower d) = true
                        ∨ PyStr.contains "appraisal" (PyStr.lower d) = true))).
Proof.
  intros Hdoc. eexists. split; [by apply BasicRuns.basic_run_any_str|].
  cbn [state run_status raised executed].
  split; [done|]. split; [done|]. split; [done|].
  split; [by do 3 (rewrite lookup_insert_ne by done)|].
  split; [do 2 (rewrite lookup_insert_ne by done); apply lookup_insert_eq|].
  split; [rewrite lookup_insert_ne by done; apply lookup_insert_eq|].
  rewrite lookup_insert_eq. do 2 f_equal.
  apply bool_decide_ext. unfold BasicGraph.label_of.
  destruct (PyStr.contains "loan" _), (PyStr.contains "appraisal" _);
    intuition congruence.
Qed.

Lemma basic_graph_on_strings_witness :
  ∃ r,
    invoke 4 BasicGraph.app {[ "document" := VStr "" ]} = Some r
    ∧ state r !! "classification" = Some (VStr "unknown")
    ∧ state r !! "is_valid" = Some (VBool false).
Proof.
  destruct (basic_graph_on_strings {[ "document" := VStr "" ]} "" 0)
    as (r & Hrun & _ & _ & _ & _ & Hc & _ & Hv); [reflexivity|].
  exists r. split; [exact Hrun|]. split; [exact Hc | exact Hv].
Defined.

(** X2.  basic_graph can fail only in classify.  On every input built
    from the modelled values (the document absent, or a str, None, a bool, a
    float or a dict) the run either completes after classify, extract and
    validate, which it does exactly when the document is a str, or it stops
    in classify with the state it was given: with [KeyError] when the input
    has no document, with [AttributeError] when the document is None, a
    bool, a float or a dict.  extract and validate never raise in a run. *)
Theorem basic_graph_fails_only_in_classify (s : State) (fuel : nat) :
  ∃ r,
    invoke (4 + fuel) BasicGraph.app s = Some r
    ∧ match s !! "document" with
      | Some (VStr d) =>
          run_status r = completed ∧ raised r = None
          ∧ executed r = ["classify"; "extract"; "validate"]
      | Some VNone | Some (VBool _) | Some (VFloat _) | Some (VDict _) =>
          run_status r = failed ∧ state r = s ∧ executed r = ["classify"]
          ∧ raised r = Some (NodeExecutionError (AttributeError "lower"))
      | None =>
          run_status r = failed ∧ state r = s ∧ executed r = ["classify"]
          ∧ raised r = Some (NodeExecutionError (KeyError "document"))
      end.
Proof.
  destruct (s !! "document") as [v|] eqn:Hdoc.
  - assert (Hraise : (∀ d, v ≠ VStr d) →
              invoke (4 + fuel) BasicGraph.app s
              = Some (mkRunResult s failed
                        (Some (NodeExecutionError (AttributeError "lower")))
                        ["classify"])).
    { intros Hv.
      apply (BasicRuns.basic_run_classify_raises s (AttributeError "lower")
               (2 + fuel)).
      by apply (BasicRuns.classify_document_not_str s v). }
    destruct v as [|d|b|f|m].
    2:{ eexists. split; [by apply BasicRuns.basic_run_any_str|].
        cbn [state run_status raised executed]. split_and!; reflexivity. }
    all: eexists; split; [apply Hraise; discriminate|];
      cbn [state run_status raised executed]; split_and!; reflexivity.
  - eexists. split.
    + apply (BasicRuns.basic_run_classify_raises s (KeyError "document")
               (2 + fuel)).
      by apply BasicRuns.classify_document_missing.
    + cbn [state run_status raised executed]. split_and!; reflexivity.
Qed.

(** X3.  [validate_data] short-circuits: with classification "unknown" it
    returns is_valid False without looking at extracted_data, which may be
    absent or not a dict.  With any other classification a missing
    extracted_data raises [KeyError], a value that is not a dict raises
    [AttributeError], and a dict without "has_content" gives False. *)
Theorem validate_data_short_circuit (s : State) (c : value) :
  s !! "classification" = Some c →
  (eq_str c "unknown" = true →
   BasicGraph.validate_data s = Ok {[ "is_valid" := VBool false ]})
  ∧ (eq_str c "unknown" = false →
     match s !! "extracted_data" with
     | None =>
         BasicGraph.validate_data s = Err (KeyError "extracted_data")
     | Some (VDict e) =>
         BasicGraph.validate_data s
         = Ok {[ "is_valid" := default (VBool false) (e !! "has_content") ]}
     | Some _ => BasicGraph.validate_data s = Err (AttributeError "get")
     end).
Proof.
  intros Hc. unfold BasicGraph.validate_data. eval_reads. split.
  - intros ->. by eval_reads.
  - intros ->. unfold getitem.
    destruct (s !! "extracted_data") as [[]|]; by eval_reads.
Qed.

Lemma validate_data_short_circuit_witness :
  BasicGraph.validate_data {[ "classification" := VStr "unknown" ]}
  = Ok {[ "is_valid" := VBool false ]}.
Proof.
  apply (validate_data_short_circuit
           {[ "classification" := VStr "unknown" ]} (VStr "unknown"));
    reflexivity.
Defined.

(** X4.  [classify_document] ignores letter case: a document and its
    lower-cased text get the same classification, in basic_graph and in
    conditional_graph. *)
Theorem classify_document_ignores_case (s : State) (d : string) :
  s !! "document" = Some (VStr d) →
  BasicGraph.classify_document (<[ "document" := VStr (PyStr.lower d) ]> s)
  = BasicGraph.classify_document s
  ∧ ConditionalGraph.classify_document
      (<[ "document" := VStr (PyStr.lower d) ]> s)
    = ConditionalGraph.classify_document s.
Proof.
  intros Hdoc.
  rewrite (BasicGraphFacts.basic_classify_document_str s d Hdoc).
  rewrite (ConditionalGraphFacts.cond_classify_document_str s d Hdoc).
  rewrite (BasicGraphFacts.basic_classify_document_str _ (PyStr.lower d))
    by apply lookup_insert_eq.
  rewrite (ConditionalGraphFacts.cond_classify_document_str _ (PyStr.lower d))
    by apply lookup_insert_eq.
  by rewrite PyStrMore.lower_idem.
Qed.

Lemma classify_document_ignores_case_witness :
  BasicGraph.classify_document {[ "document" := VStr "an appraisal" ]}
  = BasicGraph.classify_document {[ "document" := VStr "An APPRAISAL" ]}.
Proof.
  destruct (classify_document_ignores_case
              {[ "document" := VStr "An APPRAISAL" ]} "An APPRAISAL")
    as [H _]; [reflexivity|].
  exact H.
Defined.

(** X5.  The classification "loan_disclosure" is stable under context:
    when a document is classified "loan_disclosure", so is every document
    that has it as a substring, whatever text is put before and after it. *)
Theorem loan_classification_stable (s s' : State) (d before after : string) :
  s !! "document" = Some (VStr d) →
  s' !! "document"
  = Some (VStr (String.append before (String.append d after))) →
  BasicGraph.classify_document s
  = Ok {[ "classification" := VStr "loan_disclosure" ]} →
  BasicGraph.classify_document s'
  = Ok {[ "classification" := VStr "loan_disclosure" ]}.
Proof.
  intros Hdoc Hdoc'.
  rewrite (BasicGraphFacts.basic_classify_document_str s d Hdoc).
  rewrite (BasicGraphFacts.basic_classify_document_str s' _ Hdoc').
  unfold BasicGraph.label_of.
  destruct (PyStr.contains "loan" (PyStr.lower d)) eqn:Hloan.
  - intros _.
    apply PyStrFacts.contains_spec in Hloan as (a & b & Hab).
    assert (Hin : PyStr.contains "loan"
                    (PyStr.lower (String.append before (String.append d after)))
                  = true).
    { apply PyStrFacts.contains_spec.
      exists (String.append (PyStr.lower before) a),
             (String.append b (PyStr.lower after)).
      rewrite !PyStrFacts.lower_append, Hab.
      by rewrite !str_append_assoc. }
    by rewrite Hin.
  - intros H.
    apply (f_equal (λ r : result Partial,
                      match r with
                      | Ok m => m !! "classification"
                      | Err _ => None
                      end)) in H.
    rewrite !lookup_singleton_eq in H.
    by destruct (PyStr.contains "appraisal" (PyStr.lower d)).
Qed.

Lemma loan_classification_stable_witness :
  BasicGraph.classify_document
    {[ "document" := VStr "Appraisal of the Loan file" ]}
  = Ok {[ "classification" := VStr "loan_disclosure" ]}.
Proof.
  apply (loan_classification_stable {[ "document" := VStr "Loan" ]}
           {[ "document" := VStr "Appraisal of the Loan file" ]}
           "Loan" "Appraisal of the " " file"); reflexivity.
Defined.

(** ** conditional_graph.py: every input *)

Module ConditionalRuns.
Import ConditionalGraph ConditionalGraphFacts.

(** The run on an input on which [classify_document] raises. *)
Lemma cond_run_classify_raises (s : State) e fuel :
  classify_document s = Err e →
  invoke (2 + fuel) app s
  = Some (mkRunResult s failed (Some (NodeExecutionError e)) ["classify"]).
Proof.
  intros Herr.
  destruct cond_app_nodes as (Hn1 & _).
  unfold invoke, invoke_thread. rewrite lookup_empty.
  change (2 + fuel) with (S (S fuel)).
  erewrite loop_continue
    by (apply step_start; [apply next_static; by rewrite cond_app_edges | done]).
  erewrite loop_halt.
  2:{ eapply step_exec_raise;
      [done | done | apply cond_app_may_enter | exact Hn1 | exact Herr]. }
  done.
Qed.

Lemma cond_classify_raises (s : State) :
  (∀ d, s !! "document" ≠ Some (VStr d)) →
  ∃ e, classify_document s = Err e.
Proof.
  intros Hdoc. unfold classify_document, getitem, mbind, result_bind.
  destruct (s !! "document") as [[|d| | |]|]; try by eexists.
  by destruct (Hdoc d).
Qed.

End ConditionalRuns.

(** X6.  In conditional_graph, when the lower-cased document contains
    "loan" or "appraisal", the run takes the extract branch and completes:
    handle_unknown is never entered, error_message is what it was in the
    input, and extracted_data holds the classification under "type" and
    True under "processed". *)
Theorem conditional_known_path (s : State) (d : string) (fuel : nat) :
  s !! "document" = Some (VStr d) →
  PyStr.contains "loan" (PyStr.lower d) = true
  ∨ PyStr.contains "appraisal" (PyStr.lower d) = true →
  ∃ r label,
    invoke (3 + fuel) ConditionalGraph.app s = Some r
    ∧ run_status r = completed ∧ raised r = None
    ∧ executed r = ["classify"; "extract"]
    ∧ (label = "loan_disclosure" ∨ label = "appraisal")
    ∧ state r !! "classification" = Some (VStr label)
    ∧ state r !! "extracted_data"
      = Some (VDict {[ "type" := VStr label; "processed" := VBool true ]})
    ∧ state r !! "error_message" = s !! "error_message".
Proof.
  intros Hdoc Hin.
  assert (Hlab : BasicGraph.label_of (PyStr.lower d) = "loan_disclosure"
                 ∨ BasicGraph.label_of (PyStr.lower d) = "appraisal").
  { unfold BasicGraph.label_of.
    destruct (PyStr.contains "loan" _); [by left|].
    destruct Hin as [Hin | Hin]; [done|]. rewrite Hin. by right. }
  eexists _, (BasicGraph.label_of (PyStr.lower d)). split.
  { apply (ConditionalGraphFacts.cond_run_known s d); [done|].
    by destruct Hlab as [-> | ->]. }
  cbn [state run_status raised executed].
  split; [done|]. split; [done|]. split; [done|]. split; [done|].
  split; [rewrite lookup_insert_ne by done; apply lookup_insert_eq|].
  split; [apply lookup_insert_eq|].
  by do 2 (rewrite lookup_insert_ne by done).
Qed.

Lemma conditional_known_path_witness :
  ∃ r label,
    invoke 3 ConditionalGraph.app ConditionalGraph.test1_input = Some r
    ∧ run_status r = completed ∧ raised r = None
    ∧ executed r = ["classify"; "extract"]
    ∧ (label = "loan_disclosure" ∨ label = "appraisal")
    ∧ state r !! "classification" = Some (VStr label)
    ∧ state r !! "extracted_data"
      = Some (VDict {[ "type" := VStr label; "processed" := VBool true ]})
    ∧ state r !! "error_message"
      = ConditionalGraph.test1_input !! "error_message".
Proof.
  apply (conditional_known_path ConditionalGraph.test1_input
           "LOAN disclosure for $500,000" 0).
  - reflexivity.
  - left. reflexivity.
Defined.

(** X7.  The two branches of conditional_graph exclude each other and the
    run can fail only in classify: whatever the input, a run that returns
    has entered classify alone and failed there, or classify then extract,
    or classify then handle_unknown, and in the last two cases it
    completed. *)
Theorem conditional_branches_exclusive (s : State) (fuel : nat) r :
  invoke fuel ConditionalGraph.app s = Some r →
  (executed r = ["classify"] ∧ run_status r = failed ∧ state r = s)
  ∨ (executed r = ["classify"; "extract"] ∧ run_status r = completed)
  ∨ (executed r = ["classify"; "handle_unknown"] ∧ run_status r = completed).
Proof.
  intros Hrun. apply (invoke_mono _ (3 + fuel)) in Hrun; [|lia].
  assert (Hfail : (∀ d, s !! "document" ≠ Some (VStr d)) →
            executed r = ["classify"] ∧ run_status r = failed ∧ state r = s).
  { intros Hdoc.
    destruct (ConditionalRuns.cond_classify_raises s Hdoc) as [e He].
    pose proof (ConditionalRuns.cond_run_classify_raises s e (1 + fuel) He)
      as Hraise.
    change (2 + (1 + fuel)) with (3 + fuel) in Hraise.
    rewrite Hraise in Hrun. injection Hrun as <-.
    cbn [state run_status executed]. split_and!; reflexivity. }
  destruct (s !! "document") as [v|] eqn:Hdoc;
    [|left; apply Hfail; discriminate].
  destruct v as [|d|b|f|m].
  2:{ destruct (decide (BasicGraph.label_of (PyStr.lower d) = "unknown"))
        as [Hlab | Hlab].
      - rewrite (ConditionalGraphFacts.cond_run_unknown s d fuel Hdoc Hlab)
          in Hrun.
        injection Hrun as <-. right. right.
        cbn [run_status executed]. split; reflexivity.
      - rewrite (ConditionalGraphFacts.cond_run_known s d fuel Hdoc Hlab)
          in Hrun.
        injection Hrun as <-. right. left.
        cbn [run_status executed]. split; reflexivity. }
  all: left; apply Hfail; intros d [= Hd].
Qed.

Lemma conditional_branches_exclusive_witness :
  ∃ r,
    invoke 5 ConditionalGraph.app ConditionalGraph.test2_input = Some r
    ∧ executed r = ["classify"; "handle_unknown"].
Proof.
  destruct (invoke 5 ConditionalGraph.app ConditionalGraph.test2_input)
    as [r|] eqn:Hrun.
  - exists r. split; [done|].
    destruct (conditional_branches_exclusive _ _ _ Hrun)
      as [(H & _) | [(H & _) | (H & _)]];
      [exfalso | exfalso | exact H];
      vm_compute in Hrun; injection Hrun as <-; discriminate H.
  - vm_compute in Hrun. discriminate Hrun.
Defined.

(** ** human_in_loop.py: the decision *)

(** X8.  The value patched into approved decides the outcome.  After the
    first invoke (which pauses), [update_state] with [{"approved": a}] and a
    resume, the run completes, approved is [a], and status is "complete"
    when [a] is truthy and "rejected" otherwise, whatever the input was. *)
Theorem approval_decides_status (s : State) (tid : string) (st : Store)
    (a : value) (fuel fuel' : nat) :
  st !! tid = None →
  ∃ st1 r1 st2 st3 r,
    invoke_thread HumanInLoop.app tid (4 + fuel) (Some s) st = Some (st1, r1)
    ∧ update_state HumanInLoop.app tid {[ "approved" := a ]} st1 = Ok st2
    ∧ invoke_thread HumanInLoop.app tid (1 + fuel') None st2 = Some (st3, r)
    ∧ run_status r = completed ∧ raised r = None
    ∧ executed r = ["finalize"]
    ∧ state r !! "approved" = Some a
    ∧ state r !! "status"
      = Some (VStr (if truthy a then "complete" else "rejected")).
Proof.
  intros Hfresh. eexists _, _, _, _, _.
  split; [by apply HumanInLoopFacts.hil_run_first|]. split.
  { apply HumanInLoopFacts.hil_update_field; [apply lookup_insert_eq|].
    in_fields. }
  cbn [cp_state cp_next cp_status]. split.
  { unfold invoke_thread. rewrite lookup_insert_eq.
    cbn [cp_status cp_state cp_next]. change (1 + fuel') with (S fuel').
    apply loop_halt.
    eapply step_exec_end;
      [done | done | by left | by rewrite HumanInLoopFacts.hil_app_nodes
      | apply (HumanInLoopFacts.finalize_val _ a), lookup_insert_eq
      | apply HumanInLoopFacts.hil_merge_field; in_fields
      | apply next_static; by rewrite HumanInLoopFacts.hil_app_edges ]. }
  cbn [state run_status raised executed].
  split; [done|]. split; [done|]. split; [done|]. split.
  - rewrite lookup_insert_ne by done. apply lookup_insert_eq.
  - apply lookup_insert_eq.
Qed.

Lemma approval_decides_status_witness :
  ∃ st1 r1 st2 st3 r,
    invoke_thread HumanInLoop.app HumanInLoop.thread_id 4
      (Some HumanInLoop.initial_state) ∅ = Some (st1, r1)
    ∧ update_state HumanInLoop.app HumanInLoop.thread_id
        {[ "approved" := VBool false ]} st1 = Ok st2
    ∧ invoke_thread HumanInLoop.app HumanInLoop.thread_id 1 None st2
      = Some (st3, r)
    ∧ run_status r = completed ∧ raised r = None
    ∧ executed r = ["finalize"]
    ∧ state r !! "approved" = Some (VBool false)
    ∧ state r !! "status" = Some (VStr "rejected").
Proof.
  apply (approval_decides_status HumanInLoop.initial_state
           HumanInLoop.thread_id ∅ (VBool false) 0 0).
  reflexivity.
Defined.

(** X9.  Resuming without a patch runs finalize on the paused state: when
    the input had approved, its truth value decides between "complete" and
    "rejected"; when the input had no approved key, finalize raises
    [KeyError], the run is failed, the state is the paused one and the
    thread still points at finalize. *)
Theorem resume_without_patch (s : State) (tid : string) (st : Store)
    (fuel fuel' : nat) :
  st !! tid = None →
  ∃ st1 r1 st2 r,
    invoke_thread HumanInLoop.app tid (4 + fuel) (Some s) st = Some (st1, r1)
    ∧ invoke_thread HumanInLoop.app tid (1 + fuel') None st1 = Some (st2, r)
    ∧ executed r = ["finalize"]
    ∧ match s !! "approved" with
      | Some a =>
          run_status r = completed ∧ raised r = None
          ∧ state r !! "status"
            = Some (VStr (if truthy a then "complete" else "rejected"))
      | None =>
          run_status r = failed
          ∧ raised r = Some (NodeExecutionError (KeyError "approved"))
          ∧ state r = state r1
          ∧ st2 !! tid = Some (mkCheckpoint (state r1) "finalize" failed)
      end.
Proof.
  intros Hfresh.
  destruct (HumanInLoopFacts.step_finalize tid
              (<[ tid := mkCheckpoint (HumanInLoop.waiting s)
                           "finalize" paused ]> st)
              (HumanInLoop.waiting s) [])
    as (st2 & r & Hstep & Htr & Hst & Hres).
  exists (<[ tid := mkCheckpoint (HumanInLoop.waiting s) "finalize" paused ]> st),
    (mkRunResult (HumanInLoop.waiting s) paused None ["extract"; "wait_approval"]),
    st2, r.
  split; [by apply HumanInLoopFacts.hil_run_first|]. split.
  { unfold invoke_thread. rewrite lookup_insert_eq.
    cbn [cp_status cp_state cp_next]. by apply loop_halt. }
  split; [exact Htr|].
  assert (Happ : HumanInLoop.waiting s !! "approved" = s !! "approved").
  { unfold HumanInLoop.waiting. rewrite lookup_insert_ne by done.
    by rewrite lookup_union_r. }
  rewrite Happ in Hres. cbn [state].
  destruct (s !! "approved") as [a|].
  - destruct Hres as (Hs & Hr & Hstate). split; [done|]. split; [done|].
    rewrite Hstate. apply lookup_insert_eq.
  - destruct Hres as (Hs & Hstate & Hr). split; [done|]. split; [done|].
    split; [done|]. rewrite Hst, Hs, Hstate. apply lookup_insert_eq.
Qed.

Lemma resume_without_patch_witness :
  ∃ st1 r1 st2 r,
    invoke_thread HumanInLoop.app HumanInLoop.thread_id 4
      (Some {[ "document" := VStr "Loan" ]}) ∅ = Some (st1, r1)
    ∧ invoke_thread HumanInLoop.app HumanInLoop.thread_id 1 None st1
      = Some (st2, r)
    ∧ executed r = ["finalize"]
    ∧ run_status r = failed
    ∧ raised r = Some (NodeExecutionError (KeyError "approved")).
Proof.
  destruct (resume_without_patch {[ "document" := VStr "Loan" ]}
              HumanInLoop.thread_id ∅ 0 0)
    as (st1 & r1 & st2 & r & H1 & H2 & H3 & H4 & H5 & _); [reflexivity|].
  exists st1, r1, st2, r.
  split; [exact H1|]. split; [exact H2|]. split; [exact H3|].
  split; [exact H4 | exact H5].
Defined.

(** X10.  The first run of human_in_loop writes three of the five
    declared fields: in the paused state extracted_amount is 500000.0,
    requires_approval is True and status is "waiting", whatever the input
    held for them, while document and approved have the value (or absence)
    they had in the input. *)
Theorem first_run_frame (s : State) (tid : string) (st : Store) (fuel : nat) :
  st !! tid = None →
  ∃ st1 r1,
    invoke_thread HumanInLoop.app tid (4 + fuel) (Some s) st = Some (st1, r1)
    ∧ state r1 !! "extracted_amount" = Some (VFloat 500000%float)
    ∧ state r1 !! "requires_approval" = Some (VBool true)
    ∧ state r1 !! "status" = Some (VStr "waiting")
    ∧ state r1 !! "document" = s !! "document"
    ∧ state r1 !! "approved" = s !! "approved".
Proof.
  intros Hfresh. eexists _, _.
  split; [by apply HumanInLoopFacts.hil_run_first|].
  cbn [state]. unfold HumanInLoop.waiting, HumanInLoop.extracted.
  assert (Hframe : ∀ k, k ≠ "extracted_amount" → k ≠ "requires_approval" →
            k ≠ "status" →
            (<[ "status" := VStr "waiting" ]>
               ({[ "extracted_amount" := VFloat 500000%float;
                   "requires_approval" := VBool true ]} ∪ s) : State) !! k
            = s !! k).
  { intros k H1 H2 H3. rewrite lookup_insert_ne by done.
    apply lookup_union_r. rewrite lookup_insert_ne by done.
    by apply lookup_singleton_ne. }
  split_and!.
  - rewrite lookup_insert_ne by done.
    by erewrite lookup_union_Some_l by apply lookup_insert_eq.
  - rewrite lookup_insert_ne by done.
    erewrite lookup_union_Some_l; [done|].
    rewrite lookup_insert_ne by done. apply lookup_singleton_eq.
  - apply lookup_insert_eq.
  - by apply Hframe.
  - by apply Hframe.
Qed.

Lemma first_run_frame_witness :
  ∃ st1 r1,
    invoke_thread HumanInLoop.app HumanInLoop.thread_id 4
      (Some HumanInLoop.initial_state) ∅ = Some (st1, r1)
    ∧ state r1 !! "requires_approval" = Some (VBool true)
    ∧ state r1 !! "approved" = Some (VBool false).
Proof.
  destruct (first_run_frame HumanInLoop.initial_state HumanInLoop.thread_id ∅ 0)
    as (st1 & r1 & Hrun & _ & Hreq & _ & _ & Happ); [reflexivity|].
  exists st1, r1. split; [exact Hrun|]. split; [exact Hreq|].
  rewrite Happ. reflexivity.
Defined.

(** X11.  How the two branch nodes compose with finalize.  The update of
    auto_approve, once merged, makes finalize answer "complete" on every
    state; the update of wait_for_approval leaves the answer of finalize
    (its status, or its [KeyError]) as it was before. *)
Theorem branch_then_finalize (s s' : State) (p : Partial) :
  merge (schema (graph HumanInLoop.app)) s p = Ok s' →
  (HumanInLoop.auto_approve s = Ok p →
   HumanInLoop.finalize s' = Ok {[ "status" := VStr "complete" ]})
  ∧ (HumanInLoop.wait_for_approval s = Ok p →
     HumanInLoop.finalize s' = HumanInLoop.finalize s).
Proof.
  intros Hm. split.
  - intros [= <-].
    apply (HumanInLoopFacts.finalize_val s' (VBool true)).
    apply (merge_written _ _ _ _ _ _ Hm). apply lookup_insert_eq.
  - intros [= <-].
    assert (Happ : s' !! "approved" = s !! "approved").
    { apply (merge_frame _ _ _ _ _ Hm). by apply lookup_singleton_ne. }
    unfold HumanInLoop.finalize, getitem. by rewrite Happ.
Qed.

Lemma branch_then_finalize_witness :
  HumanInLoop.finalize
    (<[ "approved" := VBool true ]>
       (<[ "status" := VStr "auto_approved" ]> HumanInLoop.initial_state))
  = Ok {[ "status" := VStr "complete" ]}.
Proof.
  destruct (branch_then_finalize HumanInLoop.initial_state
              (<[ "approved" := VBool true ]>
                 (<[ "status" := VStr "auto_approved" ]>
                    HumanInLoop.initial_state))
              {[ "approved" := VBool true; "status" := VStr "auto_approved" ]})
    as [H _]; [vm_compute; reflexivity|].
  apply H. reflexivity.
Defined.



(** ** ai_workflow.py *)

Module PyStrCase.
Import PyStr.

Lemma is_space_lower_char c : is_space (lower_char c) = is_space c.
Proof. by destruct c as [[] [] [] [] [] [] [] []]. Qed.

Lemma lstrip_lower s : lstrip (lower s) = lower (lstrip s).
Proof.
  induction s as [|c s IH]; simpl; [done|].
  rewrite is_space_lower_char. by destruct (is_space c).
Qed.

Lemma rstrip_lower s : rstrip (lower s) = lower (rstrip s).
Proof.
  induction s as [|c s IH]; simpl; [done|].
  rewrite IH, is_space_lower_char.
  destruct (rstrip s); simpl; [by destruct (is_space c) | done].
Qed.

(** Stripping and case folding commute. *)
Lemma strip_lower s : strip (lower s) = lower (strip s).
Proof. unfold strip. by rewrite lstrip_lower, rstrip_lower. Qed.

End PyStrCase.

Module AiWorkflowFacts.
Import AiRouting.

Section WithLLM.
Variable py_format : value → string.
Variable classify_completion : string → result string.
Variable loan_data appraisal_data : value → result (gmap string value).

Let ai_app : CompiledGraph :=
  AiWorkflow.app py_format classify_completion loan_data appraisal_data.

Lemma ai_app_nodes :
  nodes (graph ai_app)
  = <[ "unknown" := AiWorkflow.handle_unknown ]>
      (<[ "extract_appraisal" :=
            AiWorkflow.extract_appraisal_data appraisal_data ]>
         (<[ "extract_loan" := AiWorkflow.extract_loan_data loan_data ]>
            (<[ "classify" :=
                  AiWorkflow.classify_with_llm py_format classify_completion ]>
               ∅))).
Proof. reflexivity. Qed.

Lemma ai_app_schema :
  schema (graph ai_app) = list_to_set AiWorkflow.DocumentState.
Proof. reflexivity. Qed.

Lemma ai_may_enter resumed n : may_enter ai_app resumed n.
Proof. right. apply not_elem_of_nil. Qed.

Lemma ai_merge (s : State) (p : Partial) :
  dom p ⊆ list_to_set AiWorkflow.DocumentState →
  merge (schema (graph ai_app)) s p = Ok (p ∪ s).
Proof. intros H. apply merge_ok. by rewrite ai_app_schema. Qed.

Lemma ai_merge_field (s : State) k v :
  k ∈ AiWorkflow.DocumentState →
  merge (schema (graph ai_app)) s {[ k := v ]} = Ok (<[ k := v ]> s).
Proof.
  intros Hk. rewrite ai_merge.
  - by rewrite insert_union_singleton_l.
  - rewrite dom_singleton_L. set_solver.
Qed.

Lemma ai_merge_two (s : State) k v v' :
  k ∈ AiWorkflow.DocumentState →
  merge (schema (graph ai_app)) s {[ k := v; "confidence" := v' ]}
  = Ok ({[ k := v; "confidence" := v' ]} ∪ s).
Proof.
  intros Hk. apply ai_merge.
  rewrite dom_insert_L, dom_singleton_L.
  intros x [->%elem_of_singleton | ->%elem_of_singleton]%elem_of_union;
    apply elem_of_list_to_set; [done | in_fields].
Qed.

Lemma classify_with_llm_val (s : State) doc content :
  s !! "document" = Some doc →
  classify_completion (py_format doc) = Ok content →
  AiWorkflow.classify_with_llm py_format classify_completion s
  = Ok {[ "classification" := VStr (PyStr.lower (PyStr.strip content)) ]}.
Proof.
  intros Hdoc Hc. unfold AiWorkflow.classify_with_llm. eval_reads.
  by rewrite Hc.
Qed.

Lemma classify_with_llm_raise (s : State) doc e :
  s !! "document" = Some doc →
  classify_completion (py_format doc) = Err e →
  AiWorkflow.classify_with_llm py_format classify_completion s = Err e.
Proof.
  intros Hdoc Hc. unfold AiWorkflow.classify_with_llm. eval_reads.
  by rewrite Hc.
Qed.

Lemma next_after_classify (s : State) c :
  s !! "classification" = Some (VStr c) →
  next_transition ai_app "classify" s = Ok (destination c).
Proof.
  intros Hc.
  assert (Hroute : AiWorkflow.route_by_type s = Ok (destination c)).
  { unfold AiWorkflow.route_by_type, destination. eval_reads. unfold eq_str.
    by repeat case_bool_decide. }
  eapply next_conditional.
  - unfold ai_app. by rewrite RoutingFacts.ai_app_edges.
  - exact Hroute.
  - unfold destination. by repeat case_bool_decide.
Qed.

(** The two turns every run starts with, when the model answers. *)
Lemma ai_run_classified (s : State) doc content fuel :
  s !! "document" = Some doc →
  classify_completion (py_format doc) = Ok content →
  let c := PyStr.lower (PyStr.strip content) in
  loop ai_app EmptyString (S (S fuel)) (mkConfig ∅ s START false [])
  = loop ai_app EmptyString fuel
      (mkConfig (<[ EmptyString :=
                      mkCheckpoint (<[ "classification" := VStr c ]> s)
                        (destination c) running ]> ∅)
                (<[ "classification" := VStr c ]> s) (destination c) false
                ["classify"]).
Proof.
  intros Hdoc Hc c.
  erewrite loop_continue.
  2:{ apply step_start;
        [ apply next_static; unfold ai_app;
          by rewrite RoutingFacts.ai_app_edges
        | done ]. }
  erewrite loop_continue.
  2:{ eapply step_exec;
      [done | done | apply ai_may_enter | by rewrite ai_app_nodes
      | by apply (classify_with_llm_val s doc content)
      | apply ai_merge_field; in_fields
      | apply next_after_classify, lookup_insert_eq
      | unfold destination; by repeat case_bool_decide ]. }
  reflexivity.
Qed.

(** A node that leads to END: what the last turn returns. *)
Lemma ai_last_turn (st : Store) (s : State) n fn p fuel trace :
  n ≠ END → n ≠ START →
  nodes (graph ai_app) !! n = Some fn →
  edges (graph ai_app) !! n = Some (Static END) →
  fn s = Ok p → dom p ⊆ list_to_set AiWorkflow.DocumentState →
  snd <$> loop ai_app EmptyString (S fuel) (mkConfig st s n false trace)
  = Some (mkRunResult (p ∪ s) completed None (trace ++ [n])).
Proof.
  intros H1 H2 Hn He Hp Hdom.
  erewrite loop_halt; [done|].
  eapply step_exec_end;
    [done | done | apply ai_may_enter | exact Hn | exact Hp
    | by apply ai_merge | by apply next_static ].
Qed.

Lemma ai_last_turn_raises (st : Store) (s : State) n fn e fuel trace :
  n ≠ END → n ≠ START →
  nodes (graph ai_app) !! n = Some fn → fn s = Err e →
  snd <$> loop ai_app EmptyString (S fuel) (mkConfig st s n false trace)
  = Some (mkRunResult s failed (Some (NodeExecutionError e)) (trace ++ [n])).
Proof.
  intros H1 H2 Hn He.
  erewrite loop_halt; [done|].
  eapply step_exec_raise; [done | done | apply ai_may_enter | exact Hn | exact He].
Qed.

End WithLLM.

End AiWorkflowFacts.

(** X12.  [classify_with_llm] normalises the answer of the model: two
    answers that differ only by white space around the text and by letter
    case give the same classification. *)
Theorem llm_answer_normalised
    (py_format : value → string)
    (completion1 completion2 : string → result string)
    (s : State) (doc : value) (before answer after answer' : string) :
  s !! "document" = Some doc →
  blank before = true → blank after = true →
  PyStr.lower answer' = PyStr.lower answer →
  completion1 (py_format doc)
  = Ok (String.append before (String.append answer after)) →
  completion2 (py_format doc) = Ok answer' →
  AiWorkflow.classify_with_llm py_format completion1 s
  = AiWorkflow.classify_with_llm py_format completion2 s.
Proof.
  intros Hdoc Hb Ha Hcase H1 H2.
  rewrite (AiWorkflowFacts.classify_with_llm_val _ _ s doc _ Hdoc H1).
  rewrite (AiWorkflowFacts.classify_with_llm_val _ _ s doc _ Hdoc H2).
  rewrite PyStrMore.strip_padding by done.
  by rewrite <- !PyStrCase.strip_lower, Hcase.
Qed.

Lemma llm_answer_normalised_witness :
  let s : State := {[ "document" := VStr "LOAN DISCLOSURE STATEMENT" ]} in
  AiWorkflow.classify_with_llm (λ _, "") (λ _, Ok "  Loan_Disclosure ") s
  = AiWorkflow.classify_with_llm (λ _, "") (λ _, Ok "loan_disclosure") s.
Proof.
  intros s.
  apply (llm_answer_normalised (λ _, "") (λ _, Ok "  Loan_Disclosure ")
           (λ _, Ok "loan_disclosure") s
           (VStr "LOAN DISCLOSURE STATEMENT")
           "  " "Loan_Disclosure" " " "loan_disclosure"); reflexivity.
Defined.

(** X13.  The two extraction paths of ai_workflow.  When the normalised
    answer of the model is "loan_disclosure" (resp. "appraisal") and the
    extraction succeeds, the run enters classify and extract_loan (resp.
    extract_appraisal) only and completes; extracted_data is the dumped
    model, confidence is 0.95 (resp. 0.92), and the error field is what it
    was in the input. *)
Theorem ai_extraction_paths
    (py_format : value → string)
    (classify_completion : string → result string)
    (loan_data appraisal_data : value → result (gmap string value))
    (s : State) (doc : value) (content : string)
    (data : gmap string value) (fuel : nat) :
  let app :=
    AiWorkflow.app py_format classify_completion loan_data appraisal_data in
  s !! "document" = Some doc →
  classify_completion (py_format doc) = Ok content →
  (PyStr.lower (PyStr.strip content) = "loan_disclosure" →
   loan_data doc = Ok data →
   ∃ r, invoke (3 + fuel) app s = Some r
        ∧ run_status r = completed ∧ raised r = None
        ∧ executed r = ["classify"; "extract_loan"]
        ∧ state r !! "classification" = Some (VStr "loan_disclosure")
        ∧ state r !! "extracted_data" = Some (VDict data)
        ∧ state r !! "confidence" = Some (VFloat 0.95%float)
        ∧ state r !! "error" = s !! "error")
  ∧ (PyStr.lower (PyStr.strip content) = "appraisal" →
     appraisal_data doc = Ok data →
     ∃ r, invoke (3 + fuel) app s = Some r
          ∧ run_status r = completed ∧ raised r = None
          ∧ executed r = ["classify"; "extract_appraisal"]
          ∧ state r !! "classification" = Some (VStr "appraisal")
          ∧ state r !! "extracted_data" = Some (VDict data)
          ∧ state r !! "confidence" = Some (VFloat 0.92%float)
          ∧ state r !! "error" = s !! "error").
Proof.
  intros app Hdoc Hc. subst app.
  assert (Hlookups : ∀ (c : string) v,
    let final : State :=
      {[ "extracted_data" := VDict data; "confidence" := v ]}
      ∪ <[ "classification" := VStr c ]> s in
    final !! "classification" = Some (VStr c)
    ∧ final !! "extracted_data" = Some (VDict data)
    ∧ final !! "confidence" = Some v
    ∧ final !! "error" = s !! "error").
  { intros c v final. unfold final. split_and!.
    - rewrite lookup_union_r; [apply lookup_insert_eq|].
      rewrite lookup_insert_ne by done. by apply lookup_singleton_ne.
    - erewrite lookup_union_Some_l; [done|]. apply lookup_insert_eq.
    - erewrite lookup_union_Some_l; [done|].
      rewrite lookup_insert_ne by done. apply lookup_singleton_eq.
    - rewrite lookup_union_r; [by rewrite lookup_insert_ne|].
      rewrite lookup_insert_ne by done. by apply lookup_singleton_ne. }
  split.
  - intros Hlab Hdata. eexists. split.
    { unfold invoke, invoke_thread. rewrite lookup_empty.
      change (3 + fuel) with (S (S (S fuel))).
      rewrite (AiWorkflowFacts.ai_run_classified _ _ _ _ s doc content _ Hdoc Hc).
      rewrite Hlab.
      apply (AiWorkflowFacts.ai_last_turn _ _ _ _ _ _ "extract_loan"
               (AiWorkflow.extract_loan_data loan_data)
               {[ "extracted_data" := VDict data;
                  "confidence" := VFloat 0.95%float ]});
        [ done | done | by rewrite AiWorkflowFacts.ai_app_nodes
        | by rewrite RoutingFacts.ai_app_edges
        | unfold AiWorkflow.extract_loan_data; eval_reads; by rewrite Hdata
        | in_fields ]. }
    cbn [state run_status raised executed].
    split; [done|]. split; [done|]. split; [done|]. apply Hlookups.
  - intros Hlab Hdata. eexists. split.
    { unfold invoke, invoke_thread. rewrite lookup_empty.
      change (3 + fuel) with (S (S (S fuel))).
      rewrite (AiWorkflowFacts.ai_run_classified _ _ _ _ s doc content _ Hdoc Hc).
      rewrite Hlab.
      apply (AiWorkflowFacts.ai_last_turn _ _ _ _ _ _ "extract_appraisal"
               (AiWorkflow.extract_appraisal_data appraisal_data)
               {[ "extracted_data" := VDict data;
                  "confidence" := VFloat 0.92%float ]});
        [ done | done | by rewrite AiWorkflowFacts.ai_app_nodes
        | by rewrite RoutingFacts.ai_app_edges
        | unfold AiWorkflow.extract_appraisal_data; eval_reads; by rewrite Hdata
        | in_fields ]. }
    cbn [state run_status raised executed].
    split; [done|]. split; [done|]. split; [done|]. apply Hlookups.
Qed.

Lemma ai_extraction_paths_witness :
  let data : gmap string value :=
    {[ "borrower_name" := VStr "Maria Pons";
       "loan_amount" := VFloat 325000%float;
       "interest_rate" := VFloat 5.875%float ]} in
  let s : State := {[ "document" := VStr "LOAN DISCLOSURE STATEMENT" ]} in
  ∃ r, invoke 3 (AiWorkflow.app (λ _, "") (λ _, Ok " Loan_Disclosure ")
                   (λ _, Ok data) (λ _, Err TypeError)) s = Some r
       ∧ run_status r = completed ∧ raised r = None
       ∧ executed r = ["classify"; "extract_loan"]
       ∧ state r !! "classification" = Some (VStr "loan_disclosure")
       ∧ state r !! "extracted_data" = Some (VDict data)
       ∧ state r !! "confidence" = Some (VFloat 0.95%float)
       ∧ state r !! "error" = s !! "error".
Proof.
  intros data s.
  destruct (ai_extraction_paths (λ _, "") (λ _, Ok " Loan_Disclosure ")
              (λ _, Ok data) (λ _, Err TypeError) s
              (VStr "LOAN DISCLOSURE STATEMENT") " Loan_Disclosure " data 0)
    as [H _]; [reflexivity | reflexivity |].
  apply H; reflexivity.
Defined.

(** X14.  The fallback path of ai_workflow.  Whatever else the model
    answers (its normalised answer is neither "loan_disclosure" nor
    "appraisal"), the run enters classify and unknown only and completes:
    no extraction is attempted, error holds the review message, confidence
    is 0.0, extracted_data is what it was in the input and classification
    records the normalised answer. *)
Theorem ai_unknown_path
    (py_format : value → string)
    (classify_completion : string → result string)
    (loan_data appraisal_data : value → result (gmap string value))
    (s : State) (doc : value) (content : string) (fuel : nat) :
  s !! "document" = Some doc →
  classify_completion (py_format doc) = Ok content →
  PyStr.lower (PyStr.strip content) ≠ "loan_disclosure" →
  PyStr.lower (PyStr.strip content) ≠ "appraisal" →
  ∃ r,
    invoke (3 + fuel)
      (AiWorkflow.app py_format classify_completion loan_data appraisal_data) s
    = Some r
    ∧ run_status r = completed ∧ raised r = None
    ∧ executed r = ["classify"; "unknown"]
    ∧ state r !! "classification"
      = Some (VStr (PyStr.lower (PyStr.strip content)))
    ∧ state r !! "error"
      = Some (VStr "Unrecognized document type. Please review manually.")
    ∧ state r !! "confidence" = Some (VFloat 0%float)
    ∧ state r !! "extracted_data" = s !! "extracted_data".
Proof.
  intros Hdoc Hc Hloan Happ. eexists. split.
  { unfold invoke, invoke_thread. rewrite lookup_empty.
    change (3 + fuel) with (S (S (S fuel))).
    rewrite (AiWorkflowFacts.ai_run_classified _ _ _ _ s doc content _ Hdoc Hc).
    assert (Hdst : AiRouting.destination (PyStr.lower (PyStr.strip content))
                   = "unknown").
    { unfold AiRouting.destination. by rewrite !bool_decide_false. }
    rewrite Hdst.
    apply (AiWorkflowFacts.ai_last_turn _ _ _ _ _ _ "unknown"
             AiWorkflow.handle_unknown
             {[ "error" :=
                  VStr "Unrecognized document type. Please review manually.";
                "confidence" := VFloat 0%float ]});
      [ done | done | by rewrite AiWorkflowFacts.ai_app_nodes
      | by rewrite RoutingFacts.ai_app_edges | reflexivity | in_fields ]. }
  cbn [state run_status raised executed].
  split; [done|]. split; [done|]. split; [done|]. split_and!.
  - rewrite lookup_union_r; [apply lookup_insert_eq|].
    rewrite lookup_insert_ne by done. by apply lookup_singleton_ne.
  - erewrite lookup_union_Some_l; [done|]. apply lookup_insert_eq.
  - erewrite lookup_union_Some_l; [done|].
    rewrite lookup_insert_ne by done. apply lookup_singleton_eq.
  - rewrite lookup_union_r; [by rewrite lookup_insert_ne|].
    rewrite lookup_insert_ne by done. by apply lookup_singleton_ne.
Qed.

Lemma ai_unknown_path_witness :
  let s : State :=
    {[ "document" := VStr "RESTAURANT MENU"; "extracted_data" := VDict ∅ ]} in
  ∃ r,
    invoke 3 (AiWorkflow.app (λ _, "") (λ _, Ok "Loan Disclosure")
                (λ _, Err TypeError) (λ _, Err TypeError)) s
    = Some r
    ∧ run_status r = completed ∧ raised r = None
    ∧ executed r = ["classify"; "unknown"]
    ∧ state r !! "classification" = Some (VStr "loan disclosure")
    ∧ state r !! "error"
      = Some (VStr "Unrecognized document type. Please review manually.")
    ∧ state r !! "confidence" = Some (VFloat 0%float)
    ∧ state r !! "extracted_data" = s !! "extracted_data".
Proof.
  intros s.
  apply (ai_unknown_path (λ _, "") (λ _, Ok "Loan Disclosure")
           (λ _, Err TypeError) (λ _, Err TypeError) s
           (VStr "RESTAURANT MENU") "Loan Disclosure" 0);
    [reflexivity | reflexivity | discriminate | discriminate].
Defined.

(** X15.  Failures of the model calls stop the run where they happen.  An
    input without document fails in classify with [KeyError]; an exception
    of the classification call fails the run in classify with the state
    untouched; an exception of the loan extraction (the call or the
    validation of its JSON) fails the run in extract_loan, after classify:
    the state then has the classification and nothing of the extraction. *)
Theorem ai_failures_stop_the_run
    (py_format : value → string)
    (classify_completion : string → result string)
    (loan_data appraisal_data : value → result (gmap string value))
    (s : State) (fuel : nat) :
  let app :=
    AiWorkflow.app py_format classify_completion loan_data appraisal_data in
  (s !! "document" = None →
   invoke (2 + fuel) app s
   = Some (mkRunResult s failed
             (Some (NodeExecutionError (KeyError "document"))) ["classify"]))
  ∧ (∀ doc e,
       s !! "document" = Some doc →
       classify_completion (py_format doc) = Err e →
       invoke (2 + fuel) app s
       = Some (mkRunResult s failed (Some (NodeExecutionError e))
                 ["classify"]))
  ∧ (∀ doc content e,
       s !! "document" = Some doc →
       classify_completion (py_format doc) = Ok content →
       PyStr.lower (PyStr.strip content) = "loan_disclosure" →
       loan_data doc = Err e →
       invoke (3 + fuel) app s
       = Some (mkRunResult
                 (<[ "classification" := VStr "loan_disclosure" ]> s) failed
                 (Some (NodeExecutionError e)) ["classify"; "extract_loan"])).
Proof.
  intros app. subst app.
  assert (Hfirst : ∀ e,
    AiWorkflow.classify_with_llm py_format classify_completion s = Err e →
    invoke (2 + fuel)
      (AiWorkflow.app py_format classify_completion loan_data appraisal_data) s
    = Some (mkRunResult s failed (Some (NodeExecutionError e)) ["classify"])).
  { intros e He. unfold invoke, invoke_thread. rewrite lookup_empty.
    change (2 + fuel) with (S (S fuel)).
    erewrite loop_continue.
    2:{ apply step_start;
          [ apply next_static; by rewrite RoutingFacts.ai_app_edges | done ]. }
    apply (AiWorkflowFacts.ai_last_turn_raises _ _ _ _ _ _ "classify"
             (AiWorkflow.classify_with_llm py_format classify_completion));
      [done | done | by rewrite AiWorkflowFacts.ai_app_nodes | exact He]. }
  split_and!.
  - intros Hdoc. apply Hfirst.
    unfold AiWorkflow.classify_with_llm. by eval_reads.
  - intros doc e Hdoc He. apply Hfirst.
    by apply (AiWorkflowFacts.classify_with_llm_raise _ _ s doc).
  - intros doc content e Hdoc Hc Hlab Hdata.
    unfold invoke, invoke_thread. rewrite lookup_empty.
    change (3 + fuel) with (S (S (S fuel))).
    rewrite (AiWorkflowFacts.ai_run_classified _ _ _ _ s doc content _ Hdoc Hc).
    rewrite Hlab.
    apply (AiWorkflowFacts.ai_last_turn_raises _ _ _ _ _ _ "extract_loan"
             (AiWorkflow.extract_loan_data loan_data));
      [ done | done | by rewrite AiWorkflowFacts.ai_app_nodes |].
    unfold AiWorkflow.extract_loan_data. eval_reads. by rewrite Hdata.
Qed.

Lemma ai_failures_stop_the_run_witness :
  invoke 2 (AiWorkflow.app (λ _, "") (λ _, Err (ExternalError "timeout"))
              (λ _, Err TypeError) (λ _, Err TypeError))
    {[ "classification" := VStr "loan_disclosure" ]}
  = Some (mkRunResult {[ "classification" := VStr "loan_disclosure" ]} failed
            (Some (NodeExecutionError (KeyError "document"))) ["classify"]).
Proof.
  destruct (ai_failures_stop_the_run (λ _, "")
              (λ _, Err (ExternalError "timeout"))
              (λ _, Err TypeError) (λ _, Err TypeError)
              {[ "classification" := VStr "loan_disclosure" ]} 0) as [H _].
  apply H. reflexivity.
Defined.

(** X16.  Running basic_graph again on its own result changes nothing: for
    an input whose document is a string, the state returned by a run is a
    fixed point of the graph, since the three nodes recompute their fields
    from the document alone. *)
Theorem basic_graph_rerun_stable (s : State) (d : string) (fuel : nat) :
  s !! "document" = Some (VStr d) →
  ∃ r r',
    invoke (4 + fuel) BasicGraph.app s = Some r
    ∧ invoke (4 + fuel) BasicGraph.app (state r) = Some r'
    ∧ run_status r' = completed
    ∧ state r' = state r.
Proof.
  intros Hdoc. eexists _, _.
  split; [by apply BasicRuns.basic_run_any_str|].
  cbn [state]. split.
  { apply (BasicRuns.basic_run_any_str _ d).
    by do 3 (rewrite lookup_insert_ne by done). }
  cbn [state run_status]. split; [done|].
  apply map_eq. intros k.
  destruct (decide (k = "is_valid")) as [-> | H1].
  { by rewrite !lookup_insert_eq. }
  rewrite !(lookup_insert_ne _ "is_valid") by done.
  destruct (decide (k = "extracted_data")) as [-> | H2].
  { by rewrite !lookup_insert_eq. }
  rewrite !(lookup_insert_ne _ "extracted_data") by done.
  destruct (decide (k = "classification")) as [-> | H3].
  { by rewrite !lookup_insert_eq. }
  by repeat (rewrite lookup_insert_ne by done).
Qed.

Lemma basic_graph_rerun_stable_witness :
  ∃ r r',
    invoke 4 BasicGraph.app BasicGraph.initial_state = Some r
    ∧ invoke 4 BasicGraph.app (state r) = Some r'
    ∧ run_status r' = completed
    ∧ state r' = state r.
Proof.
  apply (basic_graph_rerun_stable BasicGraph.initial_state
           "This is a LOAN disclosure document for $500,000" 0).
  reflexivity.
Defined.
